(** * PyKNyX: link data service, notifier and multicast sockets

    A shallow embedding of three modules of the PyKNyX KNX stack:

    - [pyknyx/services/notifier.py]       (class [Notifier]),
    - [pknyx/stack/layer2/l_dataService.py] (class [L_DataService]),
    - [pknyx/stack/multicastSocket.py]    (classes [MulticastSocket*]).

    Python statements are embedded in a state-and-exception monad: a
    computation takes the current world and yields either a value or a
    raised exception, together with the world as the statements executed so
    far left it (side effects performed before a [raise] persist, exactly as
    in Python). *)

From stdpp Require Import gmap strings list fin_maps.
From Stdlib Require Import ZArith Lia.

Open Scope Z_scope.
Open Scope string_scope.
Open Scope list_scope.

(** ** Python core: exceptions and the statement monad *)

Module Py.

(** An exception instance, identified by the name of its class. *)
Inductive exn : Type := Exn (cls : string).

#[global] Instance exn_eq_dec : EqDecision exn.
Proof. solve_decision. Defined.

(** Outcome of evaluating an expression or running a statement. *)
Inductive res (A : Type) : Type :=
| Ret (a : A)
| Exc (e : exn).
Arguments Ret {A} a.
Arguments Exc {A} e.

Definition M (S A : Type) : Type := S -> res A * S.

Definition ret {S A} (a : A) : M S A := fun s => (Ret a, s).

Definition bind {S A B} (c : M S A) (k : A -> M S B) : M S B :=
  fun s => match c s with
           | (Ret a, s') => k a s'
           | (Exc e, s') => (Exc e, s')
           end.

(** [raise e] *)
Definition raise {S A} (e : exn) : M S A := fun s => (Exc e, s).

(** [try: body / except: handler] with a bare [except:], which catches
    every exception. *)
Definition try_except {S A} (body : M S A) (handler : M S A) : M S A :=
  fun s => match body s with
           | (Ret a, s') => (Ret a, s')
           | (Exc _, s') => handler s'
           end.

Definition get {S} : M S S := fun s => (Ret s, s).
Definition modify {S} (f : S -> S) : M S unit := fun s => (Ret tt, f s).

(** [for x in l: body x] over a list that the body does not mutate. *)
Fixpoint for_ {S A} (l : list A) (body : A -> M S unit) : M S unit :=
  match l with
  | [] => ret tt
  | x :: l' => bind (body x) (fun _ => for_ l' body)
  end.

End Py.

Import Py.

Declare Scope py_scope.
Delimit Scope py_scope with py.
Notation "x <~ c ;; k" := (Py.bind c (fun x => k))
  (at level 100, c at next level, right associativity) : py_scope.
Notation "c ;;; k" := (Py.bind c (fun _ => k))
  (at level 100, right associativity) : py_scope.
Open Scope py_scope.

(** ** [pyknyx/services/notifier.py] *)

Module Notifier.

(** *** Python values the notifier handles *)

(** A function object (the thing a decorator receives): [fn_name] is its
    [__name__]; two function objects are the same object exactly when name
    and serial number agree. *)
Record pyfunction : Type := { fn_name : string; fn_serial : nat }.

#[global] Instance pyfunction_eq_dec : EqDecision pyfunction.
Proof. solve_decision. Defined.

(** A bound method: the instance it is bound to (by identity) and the
    function it wraps. *)
Record method : Type := { im_self : nat; im_func : pyfunction }.

#[global] Instance method_eq_dec : EqDecision method.
Proof. solve_decision. Defined.

(** What a class or instance dictionary may hold under a name. *)
Inductive member : Type :=
| MFunction (f : pyfunction)   (* a [def] in the class body *)
| MNone                         (* an attribute set to [None] *)
| MOther.                       (* any other, non-callable attribute *)

(** An instance (a functional block): its identity, which is also its
    dictionary key, and the attributes reachable through [getattr]. *)
Record pyobject : Type := { oid : nat; members : gmap string member }.

(** Values produced by [getattr(obj, name, None)]. *)
Inductive pyattr : Type :=
| ANone
| AMethod (m : method)
| AOther.

(** [getattr(obj, name, None)]: a function found in the class is returned
    bound to [obj]. *)
Definition getattr (obj : pyobject) (name : string) : pyattr :=
  match members obj !! name with
  | Some (MFunction f) => AMethod {| im_self := oid obj; im_func := f |}
  | Some MNone => ANone
  | Some MOther => AOther
  | None => ANone
  end.

(** Datapoint values, compared with [!=]. *)
Inductive pyval : Type :=
| VNone
| VInt (z : Z)
| VStr (s : string).

#[global] Instance pyval_eq_dec : EqDecision pyval.
Proof. solve_decision. Defined.

Definition py_ne (a b : pyval) : bool := bool_decide (a ≠ b).

(** The event record built by [datapointNotify]:
    [dict(name=..., dp=..., oldValue=..., newValue=..., condition=...,
    thread=...)]. *)
Record event : Type := {
  name : string;
  dp : string;
  oldValue : pyval;
  newValue : pyval;
  condition : string;
  thread : bool
}.

#[global] Instance event_eq_dec : EqDecision event.
Proof. solve_decision. Defined.

(** One entry of [_pendingFuncs]: [(type_, func, (dp, condition, thread))]. *)
Definition pending : Type := string * pyfunction * (string * string * bool).

(** One entry of a job list: [(method, condition, thread)]. *)
Definition job : Type := method * string * bool.

Inductive log_entry : Type :=
| LogDebug (msg : string)
| LogWarning (msg : string)
| LogException (msg : string).

#[global] Instance log_entry_eq_dec : EqDecision log_entry.
Proof. solve_decision. Defined.

(** The world a [Notifier] method runs in: the two instance attributes,
    the logger's output, the calls made to handlers so far (inline, on the
    calling thread), the worker threads handed to
    [thread.start_new_thread], and the state [U] of the user's code. *)
Record world (U : Type) : Type := {
  _pendingFuncs : list pending;
  _datapointJobs : gmap nat (gmap string (list job));
  log : list log_entry;
  called : list (method * event);
  started : list (method * event);
  user : U
}.
Arguments _pendingFuncs {U} w.
Arguments _datapointJobs {U} w.
Arguments log {U} w.
Arguments called {U} w.
Arguments started {U} w.
Arguments user {U} w.

(** [Notifier.__init__] *)
Definition init {U} (u : U) : world U :=
  {| _pendingFuncs := []; _datapointJobs := ∅; log := [];
     called := []; started := []; user := u |}.

Section Methods.
Context {U : Type}.

(** The body of a handler: what calling [method(event)] does to the
    user's state, and whether it returns or raises. *)
Variable call_method : method -> event -> U -> res unit * U.

Abbreviation W := (world U).

Definition logger (e : log_entry) : M W unit :=
  modify (fun w => {| _pendingFuncs := _pendingFuncs w;
                      _datapointJobs := _datapointJobs w;
                      log := log w ++ [e];
                      called := called w; started := started w;
                      user := user w |}).

Definition set_pending (p : list pending) : M W unit :=
  modify (fun w => {| _pendingFuncs := p;
                      _datapointJobs := _datapointJobs w;
                      log := log w;
                      called := called w; started := started w;
                      user := user w |}).

Definition set_jobs (j : gmap nat (gmap string (list job))) : M W unit :=
  modify (fun w => {| _pendingFuncs := _pendingFuncs w;
                      _datapointJobs := j;
                      log := log w;
                      called := called w; started := started w;
                      user := user w |}).

(** [method(event)]: the call is recorded, then the handler body runs. *)
Definition invoke (m : method) (ev : event) : M W unit :=
  fun w =>
    let (r, u') := call_method m ev (user w) in
    (r, {| _pendingFuncs := _pendingFuncs w;
           _datapointJobs := _datapointJobs w;
           log := log w;
           called := called w ++ [(m, ev)];
           started := started w;
           user := u' |}).

(** Names bound at module level in [notifier.py] (its imports, the
    [scheduler] variable and the two classes). *)
Definition module_globals : list string :=
  ["six"; "PyKNyXValueError"; "reprStr"; "func_name"; "meth_name";
   "meth_self"; "meth_func"; "Singleton"; "logging"; "logger";
   "scheduler"; "NotifierValueError"; "Notifier"].

(** Evaluating a global name: [NameError] when the module does not bind
    it (none of the names used here is a builtin). *)
Definition load_global (n : string) : M W unit :=
  if bool_decide (n ∈ module_globals) then ret tt
  else raise (Exn "NameError").

(** Modelled from the spec: the accessors of [pyknyx.common.utils]
    ([func_name], [meth_name], [meth_self], [meth_func]) are not part of
    the sources at hand; they read the name of a function and the
    instance and underlying function of a bound method, and fail with
    [AttributeError] on a value that is not a bound method. *)
Definition func_name (f : pyfunction) : string := fn_name f.

Definition meth_func (a : pyattr) : M W pyfunction :=
  match a with
  | AMethod m => ret (im_func m)
  | _ => raise (Exn "AttributeError")
  end.

Definition meth_self (a : pyattr) : M W nat :=
  match a with
  | AMethod m => ret (im_self m)
  | _ => raise (Exn "AttributeError")
  end.

Definition meth_name (a : pyattr) : M W string :=
  match a with
  | AMethod m => ret (fn_name (im_func m))
  | _ => raise (Exn "AttributeError")
  end.

(** [Notifier._execute] *)
Definition _execute (m : method) (ev : event) : M W unit :=
  try_except (invoke m ev)
             (logger (LogException "Notifier._execute()")).

(** [Notifier.addDatapointJob] *)
Definition addDatapointJob (func : pyfunction) (dp_ : string)
           (condition_ : string) (thread_ : bool) : M W unit :=
  logger (LogDebug "Notifier.addDatapointJob()") ;;;
  (if bool_decide (condition_ ∉ ["change"; "always"])
   then raise (Exn "NotifierValueError") else ret tt) ;;;
  w <~ get ;;
  set_pending (_pendingFuncs w ++ [("datapoint", func, (dp_, condition_, thread_))]).

(** The nested [try/except KeyError] that stores a job under
    [self._datapointJobs[obj][dp]]. *)
Definition store_job (o : nat) (dp_ : string) (j : job) : M W unit :=
  w <~ get ;;
  let jobs := _datapointJobs w in
  match jobs !! o with
  | Some byDp =>
      match byDp !! dp_ with
      | Some l => set_jobs (<[o := <[dp_ := l ++ [j]]> byDp]> jobs)
      | None => set_jobs (<[o := <[dp_ := [j]]> byDp]> jobs)
      end
  | None => set_jobs (<[o := {[dp_ := [j]]}]> jobs)
  end.

(** The body of the [for] loop of [doRegisterJobs], for one entry
    [(type_, func, args)] of [_pendingFuncs]. *)
Definition register_pending (obj : pyobject) (p : pending) : M W unit :=
  let '(type_, func, args) := p in
  logger (LogDebug "Notifier.doRegisterJobs(): type_, func, args") ;;;
  let method_ := getattr obj (func_name func) in
  match method_ with
  | ANone => ret tt
  | _ =>
      n <~ meth_name method_ ;;
      s <~ meth_self method_ ;;
      logger (LogDebug "Notifier.doRegisterJobs(): add method") ;;;
      f <~ meth_func method_ ;;
      if bool_decide (f = func) then
        if bool_decide (type_ = "datapoint") then
          let '(dp_, condition_, thread_) := args in
          match method_ with
          | AMethod m => store_job (oid obj) dp_ (m, condition_, thread_)
          | _ => ret tt
          end
        else ret tt
      else ret tt
  end.

(** [Notifier.doRegisterJobs] *)
Definition doRegisterJobs (obj : pyobject) : M W unit :=
  logger (LogDebug "Notifier.doRegisterJobs()") ;;;
  w <~ get ;;
  for_ (_pendingFuncs w) (register_pending obj).

(** [thread.start_new_thread(self._execute, (method, event))]: the name
    [thread] is looked up first; the worker is then handed over to run
    [_execute(method, event)] on its own. *)
Definition start_new_thread (m : method) (ev : event) : M W unit :=
  load_global "thread" ;;;
  modify (fun w => {| _pendingFuncs := _pendingFuncs w;
                      _datapointJobs := _datapointJobs w;
                      log := log w;
                      called := called w;
                      started := started w ++ [(m, ev)];
                      user := user w |}).

(** The test of line 256:
    [oldValue != newValue and condition == "change" or condition == "always"]. *)
Definition triggers (old new : pyval) (condition_ : string) : bool :=
  (py_ne old new && bool_decide (condition_ = "change"))
  || bool_decide (condition_ = "always").

(** The body of the [for] loop of [datapointNotify]. *)
Definition notify_job (dp_ : string) (old new : pyval) (j : job) : M W unit :=
  let '(method_, condition_, thread_) := j in
  if triggers old new condition_ then
    try_except
      (logger (LogDebug "Notifier.datapointNotify(): trigger method") ;;;
       let ev := {| name := "datapoint"; dp := dp_; oldValue := old;
                    newValue := new; condition := condition_;
                    thread := thread_ |} in
       if thread_ then start_new_thread method_ ev
       else _execute method_ ev)
      (logger (LogException "Notifier.datapointNotify()"))
  else ret tt.

(** Reading an attribute of an instance, as in [obj.name]:
    [AttributeError] when the instance has no attribute of that name. *)
Definition load_attr (obj : pyobject) (n : string) : M W unit :=
  match members obj !! n with
  | Some _ => ret tt
  | None => raise (Exn "AttributeError")
  end.

(** [Notifier.datapointNotify].  The first statement formats its debug line
    from [obj.name], outside every [try]. *)
Definition datapointNotify (obj : pyobject) (dp_ : string)
           (old new : pyval) : M W unit :=
  load_attr obj "name" ;;;
  logger (LogDebug "Notifier.datapointNotify()") ;;;
  w <~ get ;;
  match _datapointJobs w !! oid obj with
  | Some byDp =>
      match byDp !! dp_ with
      | Some l => for_ l (notify_job dp_ old new)
      | None => ret tt
      end
  | None => ret tt
  end.

End Methods.

End Notifier.


(** ** [pknyx/stack/layer2/l_dataService.py] *)

Module L_DataService.

(** Modelled from the spec: the class [CEMILData]
    ([pknyx.stack.cemi.cemiLData]) is not part of the sources at hand.  A
    cEMI frame is
    [MC | AIL | AI[] | CTRL1 | CTRL2 | SA(2) | DA(2) | NPDULEN | TPCI | APCI+data];
    the attributes the service reads and writes are views of these fields. *)
Record CEMILData : Type := {
  messageCode : Z;
  addInfo : list Z;
  ctrl1 : Z;
  ctrl2 : Z;
  sourceAddress : Z;        (* raw 16-bit individual address *)
  destinationAddress : Z;   (* raw 16-bit address *)
  npdu : list Z             (* TPCI, APCI and data octets *)
}.

#[global] Instance CEMILData_eq_dec : EqDecision CEMILData.
Proof. solve_decision. Defined.

(** Modelled from the spec: the message codes of [CEMILData]. *)
Definition MC_LDATA_REQ : Z := 0x11.
Definition MC_LDATA_CON : Z := 0x2E.
Definition MC_LDATA_IND : Z := 0x29.

(** Modelled from the spec: [cEMI.priority] is bits 3-2 of CTRL1. *)
Definition priority (c : CEMILData) : Z := Z.land (Z.shiftr (ctrl1 c) 2) 3.

(** Modelled from the spec: the setter [cEMI.sourceAddress = addr] writes the
    SA field of the frame. *)
Definition set_sourceAddress (addr : Z) (c : CEMILData) : CEMILData :=
  {| messageCode := messageCode c; addInfo := addInfo c;
     ctrl1 := ctrl1 c; ctrl2 := ctrl2 c;
     sourceAddress := addr;
     destinationAddress := destinationAddress c; npdu := npdu c |}.

(** Modelled from the spec: [cEMI.frame], the frame the object wraps. *)
Definition frame (c : CEMILData) : CEMILData := c.

(** Modelled from the spec: the result of a transmission ([ok | timeout]). *)
Inductive Result : Type := OK | TIMEOUT.

(** Modelled from the spec: the class [Transmission]
    ([pknyx.stack.transceiver.transmission]) is not part of the sources at
    hand: an outbound frame plus a confirmation latch, guarded by a condition
    variable ([acquire], [wait], [release]).  [held] tells whether the
    calling thread holds that condition. *)
Record Transmission : Type := {
  payload : CEMILData;
  waitConfirm : bool;
  result : Result;
  held : bool
}.

(** [Transmission(payload)]: a fresh envelope, awaiting its confirmation. *)
Definition new_Transmission (p : CEMILData) : Transmission :=
  {| payload := p; waitConfirm := true; result := OK; held := false |}.

Definition set_held (b : bool) (t : Transmission) : Transmission :=
  {| payload := payload t; waitConfirm := waitConfirm t;
     result := result t; held := b |}.

(** What the other threads (the transmitter, a timer) did to a transmission
    by the time a [wait()] on it returns: nothing ([None]: a timeout or a
    wake-up without change), or an assignment of [waitConfirm] and
    [result]. *)
Definition env_step : Type := option (bool * Result).

Definition apply_env (e : env_step) (t : Transmission) : Transmission :=
  match e with
  | None => t
  | Some (wc, r) =>
      {| payload := payload t; waitConfirm := wc; result := r; held := held t |}
  end.

Inductive log_entry : Type :=
| LogTrace (msg : string)
| LogDebug (msg : string) (c : CEMILData)
| LogWarning (msg : string)
| LogException (msg : string).

#[global] Instance link_log_entry_eq_dec : EqDecision log_entry.
Proof. solve_decision. Defined.

(** The world the service runs in.  Besides the instance attributes it holds
    the [Transmission] objects created so far (they are shared with the
    transmitter thread, so the out queue refers to them by reference), the
    logger's output, the [dataInd] calls made on listeners, and the state
    [U] of the layers above.

    Modelled from the spec: [PriorityQueue] is not part of the sources at
    hand.  [_outQueue] records the [add(item, priority)] calls in order. *)
Record world (U : Type) : Type := {
  _individualAddress : Z;
  _outQueue : list (nat * Z);
  _ldl : option nat;
  _running : bool;
  transmissions : list Transmission;
  log : list log_entry;
  indications : list (nat * CEMILData);
  upper : U
}.
Arguments _individualAddress {U} w.
Arguments _outQueue {U} w.
Arguments _ldl {U} w.
Arguments _running {U} w.
Arguments transmissions {U} w.
Arguments log {U} w.
Arguments indications {U} w.
Arguments upper {U} w.

(** [L_DataService.__init__] *)
Definition init {U} (individualAddress : Z) (u : U) : world U :=
  {| _individualAddress := individualAddress; _outQueue := [];
     _ldl := None; _running := false; transmissions := [];
     log := []; indications := []; upper := u |}.

(** What the worker thread meets, in the order in which it meets it: the
    outcome of a [self._inQueue.remove()] (a frame, or an exception raised by
    the queue), or a [stop()] issued by another thread and seen at the next
    loop head.  A [stop()] issued while the worker waits in [remove()] is
    seen only at the loop head after the next frame, and stands after that
    frame here; one after which no frame arrives has no place in the list,
    and the worker then stays in [remove()]. *)
Inductive inbound : Type :=
| Removed (c : CEMILData)
| RemoveRaises (e : exn)
| StopCalled.

(** How [run] ends: the loop left because [_running] was cleared, the thread
    sits in [remove()] on an empty queue, or an exception escaped. *)
Inductive run_outcome (U : Type) : Type :=
| Ended (w : world U)
| Blocked (w : world U)
| Raised (e : exn) (w : world U).
Arguments Ended {U} w.
Arguments Blocked {U} w.
Arguments Raised {U} e w.

Section Methods.
Context {U : Type}.

(** The body of a listener's [dataInd]: what the call does to the layers
    above, and whether it returns or raises. *)
Variable dataInd_body : nat -> CEMILData -> U -> res unit * U.

Abbreviation W := (world U).

Definition logger (e : log_entry) : M W unit :=
  modify (fun w => {| _individualAddress := _individualAddress w;
                      _outQueue := _outQueue w; _ldl := _ldl w;
                      _running := _running w;
                      transmissions := transmissions w;
                      log := log w ++ [e];
                      indications := indications w; upper := upper w |}).

Definition set_running (b : bool) (w : W) : W :=
  {| _individualAddress := _individualAddress w;
     _outQueue := _outQueue w; _ldl := _ldl w;
     _running := b;
     transmissions := transmissions w; log := log w;
     indications := indications w; upper := upper w |}.

Definition set_transmissions (ts : list Transmission) (w : W) : W :=
  {| _individualAddress := _individualAddress w;
     _outQueue := _outQueue w; _ldl := _ldl w;
     _running := _running w;
     transmissions := ts; log := log w;
     indications := indications w; upper := upper w |}.

Definition set_outQueue (q : list (nat * Z)) (w : W) : W :=
  {| _individualAddress := _individualAddress w;
     _outQueue := q; _ldl := _ldl w;
     _running := _running w;
     transmissions := transmissions w; log := log w;
     indications := indications w; upper := upper w |}.

(** [L_DataService.setListener] *)
Definition setListener (ldl : option nat) : M W unit :=
  modify (fun w => {| _individualAddress := _individualAddress w;
                      _outQueue := _outQueue w; _ldl := ldl;
                      _running := _running w;
                      transmissions := transmissions w; log := log w;
                      indications := indications w; upper := upper w |}).

(** [L_DataService.stop] *)
Definition stop : M W unit :=
  logger (LogTrace "L_DataService.stop()") ;;;
  modify (set_running false).

(** [self._ldl.dataInd(cEMI)]: the call is recorded, then the listener's
    body runs.  The body acts on the layers above only: a listener that
    calls back into the service within the call is outside the model. *)
Definition dataInd (l : nat) (c : CEMILData) : M W unit :=
  fun w =>
    let (r, u') := dataInd_body l c (upper w) in
    (r, {| _individualAddress := _individualAddress w;
           _outQueue := _outQueue w; _ldl := _ldl w;
           _running := _running w;
           transmissions := transmissions w; log := log w;
           indications := indications w ++ [(l, c)];
           upper := u' |}).

(** [cEMI = self._inQueue.remove()], for the two outcomes that return. *)
Definition remove (r : res CEMILData) : M W CEMILData :=
  match r with
  | Ret c => ret c
  | Exc e => raise e
  end.

(** The statements inside the [try:] of [run]'s loop. *)
Definition run_body (r : res CEMILData) : M W unit :=
  cEMI <~ remove r ;;
  logger (LogDebug "L_DataService.run(): cEMI" cEMI) ;;;
  w <~ get ;;
  let srcAddr := sourceAddress cEMI in
  if bool_decide (srcAddr ≠ _individualAddress w) then
    if bool_decide (messageCode cEMI = MC_LDATA_IND) then
      match _ldl w with
      | None => logger (LogWarning "L_GroupDataService.run(): not listener defined")
      | Some l => dataInd l cEMI
      end
    else ret tt
  else ret tt.

(** One turn of the loop: [try: ... except: Logger().exception(...)]. *)
Definition run_once (r : res CEMILData) : M W unit :=
  try_except (run_body r) (logger (LogException "L_DataService.run()")).

(** Leaving the loop: [Logger().trace("L_DataService.run(): ended")]. *)
Definition run_ended (w : W) : run_outcome U :=
  Ended (snd (logger (LogTrace "L_DataService.run(): ended") w)).

(** The [while self._running:] loop. *)
Fixpoint run_loop (inq : list inbound) (w : W) : run_outcome U :=
  match inq with
  | StopCalled :: inq' => run_loop inq' (snd (stop w))
  | Removed c :: inq' =>
      if _running w then
        match run_once (Ret c) w with
        | (Ret _, w') => run_loop inq' w'
        | (Exc e, w') => Raised e w'
        end
      else run_ended w
  | RemoveRaises e :: inq' =>
      if _running w then
        match run_once (Exc e) w with
        | (Ret _, w') => run_loop inq' w'
        | (Exc e', w') => Raised e' w'
        end
      else run_ended w
  | [] => if _running w then Blocked w else run_ended w
  end.

(** [L_DataService.run] *)
Definition run (inq : list inbound) (w : W) : run_outcome U :=
  run_loop inq (set_running true (snd (logger (LogTrace "L_DataService.run()") w))).

(** [transmission = Transmission(cEMI.frame)]: the new object and a
    reference to it. *)
Definition alloc_Transmission (p : CEMILData) : M W nat :=
  fun w => (Ret (length (transmissions w)),
            set_transmissions (transmissions w ++ [new_Transmission p]) w).

Definition update_Transmission (ref : nat) (f : Transmission -> Transmission) : M W unit :=
  modify (fun w => set_transmissions (alter f ref (transmissions w)) w).

(** [self._outQueue.add(transmission, priority)] *)
Definition outQueue_add (ref : nat) (prio : Z) : M W unit :=
  modify (fun w => set_outQueue (_outQueue w ++ [(ref, prio)]) w).

(** The statements of [dataReq] up to the [while]: the frame is stamped,
    wrapped, and queued.  Yields the reference to the transmission and the
    frame object as the caller now sees it. *)
Definition dataReq_send (cEMI : CEMILData) : M W (nat * CEMILData) :=
  logger (LogDebug "L_DataService.dataReq(): cEMI" cEMI) ;;;
  w <~ get ;;
  let cEMI := set_sourceAddress (_individualAddress w) cEMI in
  let prio := priority cEMI in
  ref <~ alloc_Transmission (frame cEMI) ;;
  update_Transmission ref (set_held true) ;;;
  outQueue_add ref prio ;;;
  ret (ref, cEMI).

(** [while transmission.waitConfirm: transmission.wait()].  Each [wait()]
    returns after the next step of the environment; when the environment has
    no further step, the call never returns ([None]). *)
Fixpoint wait_confirm (env : list env_step) (ref : nat) (w : W) : option W :=
  match transmissions w !! ref with
  | None => None
  | Some t =>
      if waitConfirm t then
        match env with
        | [] => None
        | e :: env' =>
            wait_confirm env' ref
              (set_transmissions (alter (apply_env e) ref (transmissions w)) w)
        end
      else Some w
  end.

(** Reading an attribute of a transmission through its reference. *)
Definition get_Transmission (ref : nat) : M W Transmission :=
  w <~ get ;;
  match transmissions w !! ref with
  | Some t => ret t
  | None => raise (Exn "ReferenceError")
  end.

(** The statements of [dataReq] after the [while]:
    [finally: transmission.release()] and [return transmission.result]. *)
Definition dataReq_return (ref : nat) : M W Result :=
  update_Transmission ref (set_held false) ;;;
  t <~ get_Transmission ref ;;
  ret (result t).

(** [L_DataService.dataReq]: [None] when the call never returns.  The frame
    object is passed by reference in the source; the model hands back the
    frame as the caller sees it afterwards.  No statement inside the [try:]
    raises, so its [finally:] clause runs on the one way out of the loop. *)
Definition dataReq (env : list env_step) (cEMI : CEMILData) (w : W)
  : option (res Result * CEMILData * W) :=
  match dataReq_send cEMI w with
  | (Exc e, w1) => Some (Exc e, cEMI, w1)
  | (Ret (ref, cEMI'), w1) =>
      match wait_confirm env ref w1 with
      | None => None
      | Some w2 =>
          let (r, w3) := dataReq_return ref w2 in Some (r, cEMI', w3)
      end
  end.

End Methods.

End L_DataService.


(** ** [pknyx/stack/multicastSocket.py] *)

Module MulticastSocket.

(** The socket options the module sets, as [(level, name)] pairs. *)
Inductive sockopt : Type :=
| SO_REUSEADDR        (* socket.SOL_SOCKET, socket.SO_REUSEADDR *)
| SO_REUSEPORT        (* socket.SOL_SOCKET, socket.SO_REUSEPORT *)
| IP_MULTICAST_TTL    (* socket.SOL_IP, socket.IP_MULTICAST_TTL *)
| IP_MULTICAST_LOOP.  (* socket.SOL_IP, socket.IP_MULTICAST_LOOP *)

#[global] Instance sockopt_eq_dec : EqDecision sockopt.
Proof. solve_decision. Defined.

Inductive log_entry : Type :=
| LogException (msg : string).

(** A socket object: the attributes the classes set, the options set (the
    [setsockopt] calls that succeeded, latest first, with the values as they
    were passed: what the system makes of a value is not part of the model),
    the address it is bound to, and the logger's output. *)
Record socket_ : Type := {
  _localAddr : string;
  _localPort : Z;
  _ttl : Z;
  _loop : Z;
  _mcastAddr : string;
  _mcastPort : Z;
  options : list (sockopt * Z);
  bound : option (string * Z);
  log : list log_entry
}.

(** [socket.socket(AF_INET, SOCK_DGRAM, IPPROTO_UDP)] before any attribute
    is set.  The creation of the socket itself is taken to have succeeded. *)
Definition fresh : socket_ :=
  {| _localAddr := ""; _localPort := 0; _ttl := 0; _loop := 0;
     _mcastAddr := ""; _mcastPort := 0;
     options := []; bound := None; log := [] |}.

(** The value last passed to a successful [setsockopt] for an option, if
    there was one. *)
Fixpoint getsockopt (o : sockopt) (opts : list (sockopt * Z)) : option Z :=
  match opts with
  | [] => None
  | (o', v) :: opts' => if bool_decide (o' = o) then Some v else getsockopt o opts'
  end.

Section Methods.

(** The operating system: whether it knows an option (a [setsockopt] on an
    option it does not know raises; the model does not let the system refuse
    an option for its value), whether [bind] succeeds, and what a [sendto]
    of a datagram returns. *)
Variable os_supports : sockopt -> bool.
Variable os_bind : string * Z -> bool.
Variable os_sendto : list Z -> string * Z -> res Z.

Abbreviation Sock := socket_.

Definition logger (e : log_entry) : M Sock unit :=
  modify (fun s => {| _localAddr := _localAddr s; _localPort := _localPort s;
                      _ttl := _ttl s; _loop := _loop s;
                      _mcastAddr := _mcastAddr s; _mcastPort := _mcastPort s;
                      options := options s; bound := bound s;
                      log := log s ++ [e] |}).

(** [self.setsockopt(level, name, value)] *)
Definition setsockopt (o : sockopt) (v : Z) : M Sock unit :=
  if os_supports o then
    modify (fun s => {| _localAddr := _localAddr s; _localPort := _localPort s;
                        _ttl := _ttl s; _loop := _loop s;
                        _mcastAddr := _mcastAddr s; _mcastPort := _mcastPort s;
                        options := (o, v) :: options s; bound := bound s;
                        log := log s |})
  else raise (Exn "OSError").

(** [self.bind(addr)] *)
Definition bind_ (addr : string * Z) : M Sock unit :=
  if os_bind addr then
    modify (fun s => {| _localAddr := _localAddr s; _localPort := _localPort s;
                        _ttl := _ttl s; _loop := _loop s;
                        _mcastAddr := _mcastAddr s; _mcastPort := _mcastPort s;
                        options := options s; bound := Some addr;
                        log := log s |})
  else raise (Exn "OSError").

(** [MulticastSocketBase._bind] *)
Definition MulticastSocketBase__bind : M Sock unit :=
  raise (Exn "NotImplementedError").

(** [MulticastSocketBase.__init__(self, localAddr, localPort, ttl=32, loop=1)];
    [_bind] is the method of the class being instantiated. *)
Definition MulticastSocketBase__init__ (_bind : M Sock unit)
           (localAddr : string) (localPort : Z) (ttl loop : Z) : M Sock unit :=
  modify (fun s => {| _localAddr := localAddr; _localPort := localPort;
                      _ttl := ttl; _loop := loop;
                      _mcastAddr := _mcastAddr s; _mcastPort := _mcastPort s;
                      options := options s; bound := bound s;
                      log := log s |}) ;;;
  setsockopt SO_REUSEADDR 1 ;;;
  try_except (setsockopt SO_REUSEPORT 1)
             (logger (LogException
                "MulticastSocketBase.__init__(): system doesn't support SO_REUSEPORT")) ;;;
  setsockopt IP_MULTICAST_TTL ttl ;;;
  setsockopt IP_MULTICAST_LOOP loop ;;;
  _bind.

(** The defaults of the signatures: [ttl=32, loop=1]. *)
Definition default_ttl : Z := 32.
Definition default_loop : Z := 1.

(** [MulticastSocketTransmit._bind] *)
Definition MulticastSocketTransmit__bind : M Sock unit :=
  s <~ get ;;
  bind_ (_localAddr s, _localPort s).

(** [MulticastSocketTransmit.__init__(self, localAddr, localPort, mcastAddr,
    mcastPort, ttl=32, loop=1)] *)
Definition MulticastSocketTransmit__init__
           (localAddr : string) (localPort : Z)
           (mcastAddr : string) (mcastPort : Z) (ttl loop : Z) : M Sock unit :=
  MulticastSocketBase__init__ MulticastSocketTransmit__bind
                              localAddr localPort ttl loop ;;;
  modify (fun s => {| _localAddr := _localAddr s; _localPort := _localPort s;
                      _ttl := _ttl s; _loop := _loop s;
                      _mcastAddr := mcastAddr; _mcastPort := mcastPort;
                      options := options s; bound := bound s;
                      log := log s |}).

(** [MulticastSocketTransmit(localAddr, localPort, mcastAddr, mcastPort)]:
    construction with the default [ttl] and [loop]. *)
Definition MulticastSocketTransmit_default
           (localAddr : string) (localPort : Z)
           (mcastAddr : string) (mcastPort : Z) : res unit * Sock :=
  MulticastSocketTransmit__init__ localAddr localPort mcastAddr mcastPort
                                  default_ttl default_loop fresh.

(** [self.sendto(data, addr)] *)
Definition sendto (data : list Z) (addr : string * Z) : M Sock Z :=
  match os_sendto data addr with
  | Ret l => ret l
  | Exc e => raise e
  end.

(** [MulticastSocketTransmit.transmit] *)
Definition transmit (data : list Z) : M Sock unit :=
  s <~ get ;;
  l <~ sendto data (_mcastAddr s, _mcastPort s) ;;
  if bool_decide (l > 0) && bool_decide (l < Z.of_nat (length data))
  then raise (Exn "IOError")
  else ret tt.

End Methods.

End MulticastSocket.


(** ** Vocabulary of the statements *)

Module NotifierSpec.
Import Notifier.

(** The job list stored under [_datapointJobs[o][dp]] (empty when a key is
    missing). *)
Definition jobs_of {U} (w : world U) (o : nat) (dp_ : string) : list job :=
  match _datapointJobs w !! o with
  | Some byDp => default [] (byDp !! dp_)
  | None => []
  end.

(** The event record [datapointNotify] builds for a job. *)
Definition event_of (dp_ : string) (old new : pyval) (j : job) : event :=
  {| name := "datapoint"; dp := dp_; oldValue := old; newValue := new;
     condition := j.1.2; thread := j.2 |}.

(** A job whose condition is satisfied by the notification. *)
Definition fires (old new : pyval) (j : job) : bool :=
  bool_decide (j.1.2 = "change" ∧ old ≠ new) || bool_decide (j.1.2 = "always").

(** The calls a notification owes to the jobs of a list: one per job whose
    condition is satisfied, in list order, each with its event record. *)
Definition due_calls (dp_ : string) (old new : pyval) (l : list job)
  : list (method * event) :=
  List.map (fun j => (j.1.1, event_of dp_ old new j))
           (List.filter (fires old new) l).

(** The same, restricted to the jobs that run inline ([thread=False]). *)
Definition inline_calls (dp_ : string) (old new : pyval) (l : list job)
  : list (method * event) :=
  due_calls dp_ old new (List.filter (fun j => negb j.2) l).

(** A job of [obj] that stems from the pending entry [p]: the entry's
    function is what [obj] holds under the function's name, and the job is
    that function bound to [obj] with the entry's arguments. *)
Definition bound_from (obj : pyobject) (p : pending) (dp_ : string) (j : job) : Prop :=
  let '(type_, func, (pdp, pcondition, pthread)) := p in
  members obj !! fn_name func = Some (MFunction func)
  ∧ dp_ = pdp
  ∧ j = ({| im_self := oid obj; im_func := func |}, pcondition, pthread).

(** Every job in the table is a decorated function bound to the instance it
    is filed under. *)
Definition table_ok {U} (w : world U) : Prop :=
  ∀ o dp_ j, j ∈ jobs_of w o dp_ →
    im_self j.1.1 = o
    ∧ ∃ type_, (type_, im_func j.1.1, (dp_, j.1.2, j.2)) ∈ _pendingFuncs w.

(** What [_execute] logs for a call of a handler in the state [u] of the
    user's code: nothing if the handler returns, one exception entry if it
    raises. *)
Definition handler_log {U} (call_method : method -> event -> U -> res unit * U)
           (m : method) (ev : event) (u : U) : list log_entry :=
  match fst (call_method m ev u) with
  | Ret _ => []
  | Exc _ => [LogException "Notifier._execute()"]
  end.

(** The log entries a notification owes to the jobs of a list, the user's
    code being in state [u] when the first of them is reached: for each job
    due, the trigger line, followed, for an inline job, by what [_execute]
    logs for its handler, and, for a job marked [thread=True], by the
    exception entry of [datapointNotify] itself. *)
Fixpoint notify_trace {U} (call_method : method -> event -> U -> res unit * U)
         (dp_ : string) (old new : pyval) (l : list job) (u : U) : list log_entry :=
  match l with
  | [] => []
  | j :: l' =>
      if fires old new j then
        LogDebug "Notifier.datapointNotify(): trigger method" ::
        (if j.2 then
           LogException "Notifier.datapointNotify()"
             :: notify_trace call_method dp_ old new l' u
         else
           handler_log call_method j.1.1 (event_of dp_ old new j) u
             ++ notify_trace call_method dp_ old new l'
                  (snd (call_method j.1.1 (event_of dp_ old new j) u)))
      else notify_trace call_method dp_ old new l' u
  end.

(** What a statement leaves alone: both tables of the notifier. *)
Definition keeps_tables {U} (w w' : world U) : Prop :=
  _pendingFuncs w' = _pendingFuncs w ∧ _datapointJobs w' = _datapointJobs w.

End NotifierSpec.

Module L_DataServiceSpec.
Import L_DataService.

(** The world a run of the worker loop ends in. *)
Definition final {U} (o : run_outcome U) : world U :=
  match o with
  | Ended w => w
  | Blocked w => w
  | Raised _ w => w
  end.

(** What a statement of the worker leaves alone: the attributes of the
    service and the transmissions. *)
Definition keeps_service {U} (w w' : world U) : Prop :=
  _individualAddress w' = _individualAddress w
  ∧ _outQueue w' = _outQueue w
  ∧ _ldl w' = _ldl w
  ∧ _running w' = _running w
  ∧ transmissions w' = transmissions w.

(** The [dataInd] calls a drained frame is owed: one, to the listener, when
    the source is foreign, the message code is [L_Data.ind] and a listener
    is set; none otherwise. *)
Definition delivered {U} (c : CEMILData) (w : world U) : list (nat * CEMILData) :=
  match _ldl w with
  | Some l =>
      if bool_decide (sourceAddress c ≠ _individualAddress w)
         && bool_decide (messageCode c = MC_LDATA_IND)
      then [(l, c)] else []
  | None => []
  end.

(** What the wait for a confirmation leaves alone: everything but the
    transmissions. *)
Definition keeps_but_transmissions {U} (w w' : world U) : Prop :=
  _individualAddress w' = _individualAddress w
  ∧ _outQueue w' = _outQueue w
  ∧ _ldl w' = _ldl w
  ∧ _running w' = _running w
  ∧ log w' = log w
  ∧ indications w' = indications w
  ∧ upper w' = upper w.

(** A step of the environment after which the transmission still awaits its
    confirmation, given that it did before. *)
Definition keeps_waiting (e : env_step) : bool :=
  match e with
  | None => true
  | Some (wc, _) => wc
  end.

(** A frame from another device, a frame sent by the device itself, and a
    confirmation frame. *)
Definition foreign_ind : CEMILData :=
  {| messageCode := MC_LDATA_IND; addInfo := []; ctrl1 := 0xBC; ctrl2 := 0xE0;
     sourceAddress := 0x1203; destinationAddress := 0x0A0B;
     npdu := [0x00; 0x80; 0x0C; 0x1A] |}.

Definition own_ind : CEMILData :=
  {| messageCode := MC_LDATA_IND; addInfo := []; ctrl1 := 0xBC; ctrl2 := 0xE0;
     sourceAddress := 0x1101; destinationAddress := 0x0A0B;
     npdu := [0x00; 0x80; 0x0C; 0x1A] |}.

Definition foreign_con : CEMILData :=
  {| messageCode := MC_LDATA_CON; addInfo := []; ctrl1 := 0xBC; ctrl2 := 0xE0;
     sourceAddress := 0x1203; destinationAddress := 0x0A0B;
     npdu := [0x00; 0x80; 0x0C; 0x1A] |}.

Definition request : CEMILData :=
  {| messageCode := MC_LDATA_REQ; addInfo := []; ctrl1 := 0xB4; ctrl2 := 0xE0;
     sourceAddress := 0; destinationAddress := 0x0A0B;
     npdu := [0x00; 0x80; 0x0C; 0x1A] |}.

(** A listener whose [dataInd] raises on every second call; the state above
    counts the calls. *)
Definition flaky_listener (l : nat) (c : CEMILData) (u : nat) : res unit * nat :=
  if Nat.even u then (Ret tt, S u) else (Exc (Exn "ValueError"), S u).

(** The service of device [1.1.1], without and with a listener. *)
Definition service : world nat := init 0x1101 0%nat.
Definition service_with_listener : world nat :=
  snd (setListener (Some 5%nat) service).

End L_DataServiceSpec.

Module MulticastSocketSpec.
Import MulticastSocket.

(** An operating system that knows every option, one that lacks
    [SO_REUSEPORT], and a [bind] that succeeds. *)
Definition os_any (o : sockopt) : bool := true.
Definition os_without_reuseport (o : sockopt) : bool :=
  bool_decide (o ≠ SO_REUSEPORT).
Definition bind_ok (addr : string * Z) : bool := true.

(** A [sendto] that reports [n] bytes sent, whatever the datagram. *)
Definition sends (n : Z) (data : list Z) (addr : string * Z) : res Z := Ret n.

(** The transmit socket of the KNXnet/IP routing transceiver, built with the
    default [ttl] and [loop]. *)
Definition routing_socket : res unit * socket_ :=
  MulticastSocketTransmit_default os_any bind_ok "192.168.1.10" 0 "224.0.23.12" 3671.

(** A routing frame of seventeen octets. *)
Definition datagram : list Z :=
  [0x06; 0x10; 0x05; 0x30; 0x00; 0x11; 0x29; 0x00; 0xBC; 0xE0;
   0x11; 0x01; 0x0A; 0x0B; 0x01; 0x00; 0x81].

End MulticastSocketSpec.

(** ** A small installation, for concrete runs *)

Module NotifierScenario.
Import Notifier NotifierSpec.

(** Two decorated methods of a functional-block class, and a method of
    another class that happens to carry the name of the first. *)
Definition tempChanged : pyfunction := {| fn_name := "tempChanged"; fn_serial := 0 |}.
Definition doorChanged : pyfunction := {| fn_name := "doorChanged"; fn_serial := 1 |}.
Definition tempChanged' : pyfunction := {| fn_name := "tempChanged"; fn_serial := 2 |}.

Definition alertFB : pyobject :=
  {| oid := 1;
     members := {[ "tempChanged" := MFunction tempChanged;
                   "doorChanged" := MFunction doorChanged;
                   "name" := MOther ]} |}.

Definition otherFB : pyobject :=
  {| oid := 2; members := {[ "tempChanged" := MFunction tempChanged' ]} |}.

(** Handler bodies: [tempChanged] raises, every other handler returns; the
    user state counts the handlers that ran to completion. *)
Definition bodies (m : method) (ev : event) (u : nat) : res unit * nat :=
  if bool_decide (im_func m = tempChanged)
  then (Exc (Exn "ValueError"), u)
  else (Ret tt, S u).

(** The notifier after the class bodies ran their decorators
    ([@notify.datapoint(dp=..., condition=..., thread=...)]) and the
    instances were registered. *)
Definition installed (decls : list (pyfunction * string * string * bool))
           (objs : list pyobject) : world nat :=
  snd ((for_ decls (fun '(f, d, c, t) => addDatapointJob f d c t) ;;;
        for_ objs doRegisterJobs) (init 0%nat)).

(** [notify(fb, dp, old, new)] run [n] times in a row. *)
Fixpoint notify_times (n : nat) (obj : pyobject) (dp_ : string)
         (old new : pyval) (w : world nat) : res unit * world nat :=
  match n with
  | O => (Ret tt, w)
  | S n' =>
      match datapointNotify bodies obj dp_ old new w with
      | (Ret _, w') => notify_times n' obj dp_ old new w'
      | (Exc e, w') => (Exc e, w')
      end
  end.

(** How often a function was called. *)
Definition times_called (f : pyfunction) (w : world nat) : nat :=
  length (List.filter (fun c => bool_decide (im_func c.1 = f)) (called w ++ started w)).

End NotifierScenario.

(** ** Further vocabulary: decorators, registration, the alert block *)

Module NotifierMore.
Import Notifier NotifierSpec.

Section Decorator.
Context {U : Type}.

(** The inner function [decorated] of [Notifier.datapoint]: it files the
    function and hands it back unwrapped. *)
Definition decorated (dp_ : string) (condition_ : string) (thread_ : bool)
           (func : pyfunction) : M (world U) pyfunction :=
  addDatapointJob func dp_ condition_ thread_ ;;;
  ret func.

(** [Notifier.datapoint(dp, *args, **kwargs)]: logs, and returns the
    decorator.  [condition] and [thread] stand for what [*args, **kwargs]
    pass on to [addDatapointJob] (by default ["change"] and [False]). *)
Definition datapoint (dp_ : string) (condition_ : string) (thread_ : bool)
  : M (world U) (pyfunction -> M (world U) pyfunction) :=
  logger (LogDebug "Notifier.datapoint()") ;;;
  ret (decorated dp_ condition_ thread_).

End Decorator.

(** The jobs [doRegisterJobs(obj)] owes to one pending entry, for the
    datapoint [dp_]: the entry's function bound to [obj], if [obj] holds that
    very function under the function's name. *)
Definition binding (obj : pyobject) (dp_ : string) (p : pending) : list job :=
  let '(type_, func, (pdp, pcondition, pthread)) := p in
  match members obj !! fn_name func with
  | Some (MFunction f) =>
      if bool_decide (f = func) && bool_decide (type_ = "datapoint")
         && bool_decide (pdp = dp_)
      then [({| im_self := oid obj; im_func := func |}, pcondition, pthread)]
      else []
  | _ => []
  end.

Definition bindings (obj : pyobject) (pend : list pending) (dp_ : string) : list job :=
  flat_map (binding obj dp_) pend.

(** No pending function's name is taken on [obj] by an attribute that is
    neither a method nor [None]. *)
Definition no_clash (obj : pyobject) (pend : list pending) : Prop :=
  ∀ p, p ∈ pend → members obj !! fn_name p.1.2 ≠ Some MOther.

(** Every condition on file, pending or registered, is one of the two that
    [addDatapointJob] accepts. *)
Definition conditions_ok {U} (w : world U) : Prop :=
  (∀ p, p ∈ _pendingFuncs w → p.2.1.2 ∈ ["change"; "always"])
  ∧ (∀ o dp_ j, j ∈ jobs_of w o dp_ → j.1.2 ∈ ["change"; "always"]).

(** What registration leaves alone: the calls made, the workers started and
    the state of the user's code. *)
Definition keeps_calls {U} (w w' : world U) : Prop :=
  called w' = called w ∧ started w' = started w ∧ user w' = user w.

(** The state the user's code is left in after the calls of a list were made
    in order (what a handler did before raising stays done). *)
Definition after_calls {U} (call_method : method -> event -> U -> res unit * U)
           (calls : list (method * event)) (u : U) : U :=
  fold_left (fun u c => snd (call_method c.1 c.2 u)) calls u.

End NotifierMore.

(** [pknyx/examples/4_alert/alert/alertFB.py] *)

Module AlertFB.
Import Notifier NotifierSpec NotifierMore.

(** The methods of the class. *)
Definition _sendEmail : pyfunction := {| fn_name := "_sendEmail"; fn_serial := 10 |}.
Definition tempChanged : pyfunction := {| fn_name := "tempChanged"; fn_serial := 11 |}.
Definition doorChanged : pyfunction := {| fn_name := "doorChanged"; fn_serial := 12 |}.

(** The decorators of the class body, in the order in which Python applies
    them: for stacked decorators the decorator expressions are evaluated top
    down, and applied to the function bottom up. *)
Definition class_body {U} : M (world U) unit :=
  d1 <~ datapoint "temp_1" "change" false ;;
  d2 <~ datapoint "temp_2" "change" false ;;
  f <~ d2 tempChanged ;;
  f <~ d1 f ;;
  d3 <~ datapoint "door_1" "change" false ;;
  f <~ d3 doorChanged ;;
  ret tt.

(** An instance of [AlertFB]: its methods, and the attributes a functional
    block carries. *)
Definition instance (id : nat) : pyobject :=
  {| oid := id;
     members := {[ "_sendEmail" := MFunction _sendEmail;
                   "tempChanged" := MFunction tempChanged;
                   "doorChanged" := MFunction doorChanged;
                   "name" := MOther; "DESC" := MOther ]} |}.

Section Handlers.

(** The mail server: whether sending a message succeeds. *)
Variable smtp : string -> bool.

(** The body of [tempChanged] reads the user's [settings.TEMP_LIMITS] and
    compares floating-point temperatures; it is left open. *)
Variable tempChanged_body : event -> list string -> res unit * list string.

(** [AlertFB._sendEmail]: the state of the user's code is the list of
    messages sent. *)
Definition sendEmail (msg : string) : M (list string) unit :=
  if smtp msg then modify (fun sent => sent ++ [msg])
  else raise (Exn "SMTPException").

(** ["'%s' value is now %s" % (dpName, newValue)] for a string value. *)
Definition door_msg (dpName : string) (newValue_ : string) : string :=
  ("'" ++ dpName ++ "' value is now " ++ newValue_)%string.

(** [AlertFB.doorChanged] *)
Definition doorChanged_body (ev : event) : M (list string) unit :=
  let dpName := dp ev in
  let newValue_ := newValue ev in
  let oldValue_ := oldValue ev in
  if bool_decide (newValue_ = VStr "Open") && bool_decide (oldValue_ = VStr "Close")
  then sendEmail (door_msg dpName "Open")
  else ret tt.

(** Calling a bound method of an [AlertFB] instance with an event. *)
Definition call (m : method) (ev : event) : M (list string) unit :=
  if bool_decide (im_func m = doorChanged) then doorChanged_body ev
  else if bool_decide (im_func m = tempChanged) then tempChanged_body ev
  else raise (Exn "TypeError").

End Handlers.

(** The notifier once the class is defined and the instance [instance id]
    is registered. *)
Definition woven (id : nat) : world (list string) :=
  snd ((class_body ;;; doRegisterJobs (instance id)) (init [])).

End AlertFB.

(** ** Further vocabulary: a whole run of the worker *)

Module L_DataServiceMore.
Import L_DataService L_DataServiceSpec.

(** What the worker meets before the first [stop()]. *)
Fixpoint before_stop (inq : list inbound) : list inbound :=
  match inq with
  | [] => []
  | StopCalled :: _ => []
  | i :: inq' => i :: before_stop inq'
  end.

(** Whether another thread calls [stop()] at all. *)
Fixpoint stops (inq : list inbound) : bool :=
  match inq with
  | [] => false
  | StopCalled :: _ => true
  | _ :: inq' => stops inq'
  end.

(** The frames among what the worker meets. *)
Definition frames (inq : list inbound) : list CEMILData :=
  flat_map (fun i => match i with Removed c => [c] | _ => [] end) inq.

(** The [dataInd] calls owed to a sequence of drained frames. *)
Definition deliveries {U} (cs : list CEMILData) (w : world U) : list (nat * CEMILData) :=
  flat_map (fun c => delivered c w) cs.

(** The state of the layers above after the [dataInd] calls of a list were
    made in order (what a listener did before raising stays done). *)
Definition after_indications {U} (dataInd_body : nat -> CEMILData -> U -> res unit * U)
           (calls : list (nat * CEMILData)) (u : U) : U :=
  fold_left (fun u c => snd (dataInd_body c.1 c.2 u)) calls u.

End L_DataServiceMore.

(** ** [pknyx/stack/multicastSocket.py]: the receive socket *)

Module MulticastSocketReceive.
Import MulticastSocket MulticastSocketSpec.

(** The four octets [socket.inet_aton] makes of a dotted-quad address. *)
Definition octets : Type := (Z * Z * Z * Z)%type.

(** A receive socket: the socket of the base class, and what the subclass
    sets on it: the outgoing interface ([IP_MULTICAST_IF]), the group joined
    ([IP_ADD_MEMBERSHIP], a group address and an interface address) and the
    timeout. *)
Record receive_socket : Type := {
  base : socket_;
  multicast_if : option octets;
  membership : option (octets * Z);
  timeout_ : option Z
}.

Definition fresh_receive : receive_socket :=
  {| base := fresh; multicast_if := None; membership := None; timeout_ := None |}.

(** [socket.INADDR_ANY] *)
Definition INADDR_ANY : Z := 0.

(** [six.byte2int]: the first octet. *)
Definition byte2int (a : octets) : Z := a.1.1.1.

Section Methods.

(** The operating system, as for the transmit socket, and besides: what
    [inet_aton] makes of a string (it raises on a malformed address),
    whether the interface can be set, whether the group can be joined, and
    what a [recvfrom] yields (it raises on a timeout). *)
Variable os_supports : sockopt -> bool.
Variable os_bind : string * Z -> bool.
Variable inet_aton : string -> res octets.
Variable os_set_if : octets -> bool.
Variable os_join : octets * Z -> bool.
Variable os_recvfrom : Z -> res (list Z * (string * Z)).

Abbreviation R := receive_socket.

(** A method of the base class, run on the receive socket. *)
Definition lift {A} (c : M socket_ A) : M R A :=
  fun s => let (r, b) := c (base s) in
           (r, {| base := b; multicast_if := multicast_if s;
                  membership := membership s; timeout_ := timeout_ s |}).

Definition aton (a : string) : M R octets :=
  match inet_aton a with
  | Ret o => ret o
  | Exc e => raise e
  end.

(** [self.setsockopt(socket.SOL_IP, socket.IP_MULTICAST_IF, addr)] *)
Definition set_multicast_if (a : octets) : M R unit :=
  if os_set_if a then
    modify (fun s => {| base := base s; multicast_if := Some a;
                        membership := membership s; timeout_ := timeout_ s |})
  else raise (Exn "OSError").

(** [self.setsockopt(socket.IPPROTO_IP, socket.IP_ADD_MEMBERSHIP, value)]
    with [value = struct.pack("=4sl", group, interface)]. *)
Definition add_membership (v : octets * Z) : M R unit :=
  if os_join v then
    modify (fun s => {| base := base s; multicast_if := multicast_if s;
                        membership := Some v; timeout_ := timeout_ s |})
  else raise (Exn "OSError").

(** [self.settimeout(timeout)]: [ValueError] on a negative timeout. *)
Definition settimeout (t : Z) : M R unit :=
  if bool_decide (t < 0) then raise (Exn "ValueError")
  else modify (fun s => {| base := base s; multicast_if := multicast_if s;
                           membership := membership s; timeout_ := Some t |}).

(** [MulticastSocketReceive._bind]: [self.bind(("", self._localPort))] *)
Definition MulticastSocketReceive__bind : M socket_ unit :=
  s <~ get ;;
  bind_ os_bind ("", _localPort s).

(** [MulticastSocketReceive.__init__(self, localAddr, mcastAddr, mcastPort,
    timeout=1, ttl=32, loop=1)] *)
Definition MulticastSocketReceive__init__
           (localAddr mcastAddr : string) (mcastPort : Z)
           (timeout ttl loop : Z) : M R unit :=
  a <~ aton mcastAddr ;;
  let multicast := bool_decide (224 <= byte2int a < 240) in
  (if negb multicast then raise (Exn "McastSockValueError") else ret tt) ;;;
  lift (modify (fun s => {| _localAddr := _localAddr s; _localPort := _localPort s;
                            _ttl := _ttl s; _loop := _loop s;
                            _mcastAddr := mcastAddr; _mcastPort := _mcastPort s;
                            options := options s; bound := bound s;
                            log := log s |})) ;;;
  lift (MulticastSocketBase__init__ os_supports MulticastSocketReceive__bind
          localAddr mcastPort ttl loop) ;;;
  s <~ get ;;
  la <~ aton (_localAddr (base s)) ;;
  set_multicast_if la ;;;
  ma <~ aton mcastAddr ;;
  add_membership (ma, INADDR_ANY) ;;;
  settimeout timeout.

(** The default of the signature: [timeout=1]. *)
Definition default_timeout : Z := 1.

(** [MulticastSocketReceive.receive]: [self.recvfrom(1024)] *)
Definition receive : M R (list Z * (string * Z)) :=
  match os_recvfrom 1024 with
  | Ret d => ret d
  | Exc e => raise e
  end.

End Methods.

(** An [inet_aton] that knows three addresses. *)
Definition aton_table (a : string) : res octets :=
  if bool_decide (a = "224.0.23.12") then Ret (224, 0, 23, 12)
  else if bool_decide (a = "192.168.1.10") then Ret (192, 168, 1, 10)
  else if bool_decide (a = "240.0.0.1") then Ret (240, 0, 0, 1)
  else Exc (Exn "OSError").

End MulticastSocketReceive.

(** ** The notifier: properties *)

Module NotifierProofs.
Import Notifier NotifierSpec.

Section Proofs.
Context {U : Type}.
Variable call_method : method -> event -> U -> res unit * U.

Lemma triggers_fires old new m c t :
  triggers old new c = fires old new (m, c, t).
Proof.
  unfold triggers, fires, py_ne. simpl.
  destruct (decide (old = new)) as [->|Hne];
    destruct (decide (c = "change"));
    destruct (decide (c = "always"));
    repeat first [ rewrite bool_decide_eq_true_2 by tauto
                 | rewrite bool_decide_eq_false_2 by tauto ];
    reflexivity.
Qed.

(** [_execute] always returns, records exactly one call, and logs an
    exception exactly when the handler raised. *)
Lemma execute_returns m ev (w : world U) :
  ∃ w', _execute call_method m ev w = (Ret tt, w')
        ∧ keeps_tables w w'
        ∧ called w' = called w ++ [(m, ev)]
        ∧ started w' = started w
        ∧ log w' = log w ++
            (match fst (call_method m ev (user w)) with
             | Ret _ => []
             | Exc _ => [LogException "Notifier._execute()"]
             end).
Proof.
  unfold _execute, try_except, invoke, logger, modify.
  destruct (call_method m ev (user w)) as [[[]|e] u'] eqn:E; simpl;
    eexists; (split; [reflexivity|]); unfold keeps_tables; simpl;
    rewrite ?app_nil_r; auto.
Qed.

(** [start_new_thread] fails on the lookup of the name [thread]. *)
Lemma start_new_thread_raises m ev (w : world U) :
  start_new_thread m ev w = (Exc (Exn "NameError"), w).
Proof. reflexivity. Qed.

(** One turn of the loop of [datapointNotify], inline job. *)
Lemma notify_job_inline dp_ old new m c (w : world U) :
  ∃ w', notify_job call_method dp_ old new (m, c, false) w = (Ret tt, w')
        ∧ keeps_tables w w'
        ∧ started w' = started w
        ∧ called w' = called w ++
            (if fires old new (m, c, false)
             then [(m, event_of dp_ old new (m, c, false))] else []).
Proof.
  unfold notify_job. rewrite (triggers_fires old new m c false).
  destruct (fires old new (m, c, false)).
  - unfold try_except, bind. unfold logger at 1. unfold modify at 1.
    match goal with
    | |- context [_execute call_method m ?ev ?w0] =>
        destruct (execute_returns m ev w0) as (w' & -> & [Hp Hj] & Hc & Hs & _)
    end.
    exists w'. simpl in *. unfold keeps_tables, event_of. simpl. auto.
  - exists w. unfold keeps_tables, ret. rewrite app_nil_r. auto.
Qed.

(** One turn of the loop of [datapointNotify], job marked [thread=True]:
    nothing is called and no worker is started. *)
Lemma notify_job_threaded dp_ old new m c (w : world U) :
  ∃ w', notify_job call_method dp_ old new (m, c, true) w = (Ret tt, w')
        ∧ keeps_tables w w'
        ∧ started w' = started w
        ∧ called w' = called w
        ∧ log w' = log w ++
            (if fires old new (m, c, true)
             then [LogDebug "Notifier.datapointNotify(): trigger method";
                   LogException "Notifier.datapointNotify()"]
             else []).
Proof.
  unfold notify_job. rewrite (triggers_fires old new m c true).
  destruct (fires old new (m, c, true)).
  - eexists. split; [reflexivity|]. unfold keeps_tables. simpl.
    rewrite <- app_assoc. auto.
  - exists w. unfold keeps_tables, ret. rewrite app_nil_r. auto.
Qed.

Lemma for_cons {S A} (x : A) (l : list A) (body : A -> M S unit) (s : S) :
  for_ (x :: l) body s =
  match body x s with
  | (Ret _, s') => for_ l body s'
  | (Exc e, s') => (Exc e, s')
  end.
Proof. reflexivity. Qed.

(** The loop over a job list: it returns, and the calls it makes are those
    owed to the inline jobs of the list. *)
Lemma notify_jobs_calls dp_ old new (l : list job) : ∀ w : world U,
  ∃ w', for_ l (notify_job call_method dp_ old new) w = (Ret tt, w')
        ∧ keeps_tables w w'
        ∧ started w' = started w
        ∧ called w' = called w ++ inline_calls dp_ old new l.
Proof.
  induction l as [|[[m c] t] l IH]; intros w.
  - exists w. unfold keeps_tables, inline_calls, due_calls. simpl.
    rewrite app_nil_r. auto.
  - rewrite for_cons.
    destruct t.
    + destruct (notify_job_threaded dp_ old new m c w)
        as (w1 & -> & [Hp Hj] & Hs & Hc & _).
      destruct (IH w1) as (w' & -> & [Hp' Hj'] & Hs' & Hc').
      exists w'. unfold keeps_tables. repeat split; try congruence.
      rewrite Hc', Hc. reflexivity.
    + destruct (notify_job_inline dp_ old new m c w)
        as (w1 & -> & [Hp Hj] & Hs & Hc).
      destruct (IH w1) as (w' & -> & [Hp' Hj'] & Hs' & Hc').
      exists w'. unfold keeps_tables. repeat split; try congruence.
      rewrite Hc', Hc, <- app_assoc. f_equal.
      unfold inline_calls, due_calls. simpl.
      destruct (fires old new (m, c, false)); reflexivity.
Qed.

(** The loop over a job list, with its log: it returns, makes the calls owed
    to the inline jobs and writes the entries owed to the jobs due. *)
Lemma notify_jobs_trace dp_ old new (l : list job) : ∀ w : world U,
  ∃ w', for_ l (notify_job call_method dp_ old new) w = (Ret tt, w')
        ∧ called w' = called w ++ inline_calls dp_ old new l
        ∧ log w' = log w ++ notify_trace call_method dp_ old new l (user w).
Proof.
  induction l as [|[[m c] t] l IH]; intros w.
  - exists w. unfold inline_calls, due_calls. simpl.
    rewrite !app_nil_r. auto.
  - rewrite for_cons. unfold notify_job at 1.
    rewrite (triggers_fires old new m c t).
    cbn [notify_trace]. unfold inline_calls, due_calls, handler_log.
    cbn [List.filter snd negb].
    destruct t; cbn [negb List.filter snd fst];
      destruct (fires old new (m, c, _)) eqn:Ef; cbn [List.map List.filter].
    + match goal with
      | |- context [try_except ?b ?h w] =>
          change (try_except b h w)
            with (Ret tt, snd (logger (LogException "Notifier.datapointNotify()")
                                 (snd (logger (LogDebug
                                    "Notifier.datapointNotify(): trigger method") w))))
      end.
      cbv beta iota.
      match goal with
      | |- context [for_ l ?f ?w0] => destruct (IH w0) as (w' & -> & Hc & Hl)
      end.
      exists w'. split; [reflexivity|]. simpl in Hc, Hl.
      split; [exact Hc|]. rewrite Hl, <- !app_assoc. reflexivity.
    + unfold ret at 1. apply IH.
    + unfold _execute, invoke, try_except, bind.
      unfold logger at 1. unfold modify at 1. cbn [user].
      destruct (call_method m (event_of dp_ old new (m, c, false)) (user w))
        as [[[]|e] u'] eqn:Ecall;
        unfold event_of in Ecall; cbn [fst snd] in Ecall; rewrite Ecall;
        unfold logger, modify; cbv beta iota; cbn [fst snd];
        match goal with
        | |- context [for_ l ?f ?w0] => destruct (IH w0) as (w' & -> & Hc & Hl)
        end;
        exists w'; (split; [reflexivity|]); simpl in Hc, Hl;
        unfold event_of; cbn [fst snd];
        (split; [rewrite Hc, <- app_assoc; reflexivity|]);
        rewrite Hl, <- !app_assoc; reflexivity.
    + unfold ret at 1. apply IH.
Qed.

(** [datapointNotify] as a whole, for an instance that has a [name]. *)
Lemma datapointNotify_calls obj dp_ old new (w : world U) :
  is_Some (members obj !! "name") →
  ∃ w', datapointNotify call_method obj dp_ old new w = (Ret tt, w')
        ∧ keeps_tables w w'
        ∧ started w' = started w
        ∧ called w' = called w ++ inline_calls dp_ old new (jobs_of w (oid obj) dp_).
Proof.
  intros [a Ha].
  unfold datapointNotify, load_attr, jobs_of, bind, logger, modify, get.
  rewrite Ha. simpl.
  destruct (_datapointJobs w !! oid obj) as [byDp|] eqn:E1; simpl;
    [destruct (byDp !! dp_) as [l|] eqn:E2; simpl|].
  - match goal with
    | |- context [for_ l ?f ?w0] =>
        destruct (notify_jobs_calls dp_ old new l w0) as (w' & -> & [Hp Hj] & Hs & Hc)
    end.
    exists w'. unfold keeps_tables. simpl in *. auto.
  - eexists. split; [reflexivity|]. unfold keeps_tables, inline_calls, due_calls.
    simpl. rewrite app_nil_r. auto.
  - eexists. split; [reflexivity|]. unfold keeps_tables, inline_calls, due_calls.
    simpl. rewrite app_nil_r. auto.
Qed.

(** The log of [datapointNotify], for an instance that has a [name]. *)
Lemma datapointNotify_trace obj dp_ old new (w : world U) :
  is_Some (members obj !! "name") →
  log (snd (datapointNotify call_method obj dp_ old new w))
  = log w ++ LogDebug "Notifier.datapointNotify()"
        :: notify_trace call_method dp_ old new (jobs_of w (oid obj) dp_) (user w).
Proof.
  intros [a Ha].
  unfold datapointNotify, load_attr, jobs_of, bind, logger, modify, get.
  rewrite Ha. simpl.
  destruct (_datapointJobs w !! oid obj) as [byDp|] eqn:E1; simpl;
    [destruct (byDp !! dp_) as [l|] eqn:E2; simpl|]; try reflexivity.
  match goal with
  | |- context [for_ l ?f ?w0] =>
      destruct (notify_jobs_trace dp_ old new l w0) as (w' & -> & _ & Hl)
  end.
  simpl in *. rewrite Hl, <- app_assoc. reflexivity.
Qed.

(** Without a [name] the notification fails at its first statement, before
    any job is looked up. *)
Lemma datapointNotify_nameless obj dp_ old new (w : world U) :
  members obj !! "name" = None →
  datapointNotify call_method obj dp_ old new w = (Exc (Exn "AttributeError"), w).
Proof.
  intros Hn. unfold datapointNotify, load_attr, bind. rewrite Hn. reflexivity.
Qed.

(** Opening move of the lemmas on registration: name the outcome by
    running the statement, and settle that [_pendingFuncs] is untouched. *)
Ltac run_statement :=
  do 2 eexists; split; [reflexivity|]; split; [reflexivity|].

Lemma store_job_spec o dp_ j (w : world U) :
  ∃ w', store_job o dp_ j w = (Ret tt, w')
        ∧ _pendingFuncs w' = _pendingFuncs w
        ∧ ∀ o' dp' j', j' ∈ jobs_of w' o' dp' →
            j' ∈ jobs_of w o' dp' ∨ (o' = o ∧ dp' = dp_ ∧ j' = j).
Proof.
  unfold store_job, bind, get.
  destruct (_datapointJobs w !! o) as [byDp|] eqn:E1;
    [destruct (byDp !! dp_) as [l|] eqn:E2|];
    (eexists; split; [reflexivity|]; split; [reflexivity|]);
    intros o' dp' j'; unfold jobs_of; simpl;
    (destruct (decide (o' = o)) as [->|Ho];
       [rewrite lookup_insert_eq, E1|rewrite lookup_insert_ne by congruence; auto]);
    (destruct (decide (dp' = dp_)) as [->|Hd];
       [rewrite ?lookup_insert_eq, ?lookup_singleton_eq, ?E2
       |rewrite ?lookup_insert_ne, ?lookup_singleton_ne by congruence; auto]);
    simpl.
  all: rewrite ?elem_of_app, ?list_elem_of_singleton; intuition.
Qed.

(** One entry of [_pendingFuncs]: whatever the outcome, a job is added only
    for that entry, and only if [obj] holds the very function under its
    name. *)
Lemma register_pending_spec obj p (w : world U) :
  ∃ r w', register_pending obj p w = (r, w')
          ∧ _pendingFuncs w' = _pendingFuncs w
          ∧ ∀ o dp_ j, j ∈ jobs_of w' o dp_ →
              j ∈ jobs_of w o dp_ ∨ (o = oid obj ∧ bound_from obj p dp_ j).
Proof.
  destruct p as [[type_ func] [[pdp pc] pt]].
  unfold register_pending, getattr, func_name, bind, logger, modify.
  destruct (members obj !! fn_name func) as [[f| |]|] eqn:E; simpl;
    try (run_statement; auto; fail).
  destruct (decide (f = func)) as [->|Hf].
  - rewrite bool_decide_eq_true_2 by reflexivity.
    destruct (bool_decide (type_ = "datapoint")).
    + match goal with
      | |- context [store_job ?o ?d ?j ?w0] =>
          destruct (store_job_spec o d j w0) as (w' & -> & Hp & Hj)
      end.
      do 2 eexists. split; [reflexivity|]. split; [exact Hp|].
      intros o dp_ j Hin. destruct (Hj _ _ _ Hin) as [Hold|(-> & -> & ->)].
      * left. exact Hold.
      * right. unfold bound_from. auto.
    + run_statement. auto.
  - rewrite bool_decide_eq_false_2 by exact Hf.
    run_statement. auto.
Qed.

Lemma register_loop_spec obj (l : list pending) : ∀ w : world U,
  ∃ r w', for_ l (register_pending obj) w = (r, w')
          ∧ _pendingFuncs w' = _pendingFuncs w
          ∧ ∀ o dp_ j, j ∈ jobs_of w' o dp_ →
              j ∈ jobs_of w o dp_
              ∨ (o = oid obj ∧ ∃ p, p ∈ l ∧ bound_from obj p dp_ j).
Proof.
  induction l as [|p l IH]; intros w.
  - run_statement. auto.
  - rewrite for_cons.
    destruct (register_pending_spec obj p w) as (r1 & w1 & -> & Hp1 & Hj1).
    destruct r1 as [[]|e].
    + destruct (IH w1) as (r & w' & -> & Hp & Hj).
      do 2 eexists. split; [reflexivity|]. split; [congruence|].
      intros o dp_ j Hin.
      destruct (Hj _ _ _ Hin) as [Hmid|(-> & q & Hq & Hb)].
      * destruct (Hj1 _ _ _ Hmid) as [Hold|(-> & Hb)]; [auto|].
        right. split; [reflexivity|]. exists p. split; [left|exact Hb].
      * right. split; [reflexivity|]. exists q. split; [by right|exact Hb].
    + do 2 eexists. split; [reflexivity|]. split; [exact Hp1|].
      intros o dp_ j Hin.
      destruct (Hj1 _ _ _ Hin) as [Hold|(-> & Hb)]; [auto|].
      right. split; [reflexivity|]. exists p. split; [left|exact Hb].
Qed.

Lemma doRegisterJobs_spec obj (w : world U) :
  ∃ r w', doRegisterJobs obj w = (r, w')
          ∧ _pendingFuncs w' = _pendingFuncs w
          ∧ ∀ o dp_ j, j ∈ jobs_of w' o dp_ →
              j ∈ jobs_of w o dp_
              ∨ (o = oid obj ∧ ∃ p, p ∈ _pendingFuncs w ∧ bound_from obj p dp_ j).
Proof.
  unfold doRegisterJobs, bind, logger, modify, get. simpl.
  match goal with
  | |- context [for_ ?l ?f ?w0] =>
      destruct (register_loop_spec obj l w0) as (r & w' & -> & Hp & Hj)
  end.
  exists r, w'. split; [reflexivity|]. split; [exact Hp|]. exact Hj.
Qed.

End Proofs.

Import NotifierScenario.

(** Inline handlers behave as the dispatcher intends: over two consecutive
    notifications with equal old and new value, a [change] handler is not
    called and an [always] handler is called twice. *)
Example inline_equal_values :
  let w := installed [(tempChanged, "temp", "change", false);
                      (doorChanged, "temp", "always", false)] [alertFB] in
  let r := notify_times 2 alertFB "temp" (VInt 21) (VInt 21) w in
  fst r = Ret tt
  ∧ times_called tempChanged (snd r) = 0%nat
  ∧ times_called doorChanged (snd r) = 2%nat.
Proof. vm_compute. auto. Qed.

(** C3, on a concrete installation: a handler declared with
    [condition="always", thread=True] is registered for the datapoint, yet
    two consecutive notifications call it zero times, hand no worker to
    [thread.start_new_thread], and log the [NameError] of the missing
    [thread] module each time. *)
Theorem always_threaded_handler_not_invoked :
  let w := installed [(tempChanged, "temp", "always", true)] [alertFB] in
  let r := notify_times 2 alertFB "temp" (VInt 21) (VInt 21) w in
  jobs_of w 1 "temp" = [({| im_self := 1; im_func := tempChanged |}, "always", true)]
  ∧ fst r = Ret tt
  ∧ times_called tempChanged (snd r) = 0%nat
  ∧ List.filter (fun e => bool_decide (e = LogException "Notifier.datapointNotify()"))
                (log (snd r))
    = [LogException "Notifier.datapointNotify()";
       LogException "Notifier.datapointNotify()"].
Proof. vm_compute. auto. Qed.

(** C4: an exception raised by a handler is caught and logged by
    [_execute], which always returns; and in [datapointNotify] no handler's
    exception gets out or stops the loop: whether the notification returns
    depends on the instance alone (it raises [AttributeError] on [obj.name]
    for an instance without a name, before any handler), and for an instance
    with a name it returns normally, makes the calls owed to all inline jobs
    of the datapoint, whichever of the handlers raise, and its log carries
    the exception entry of every handler that raised. *)
Theorem handler_exceptions_contained
        {U : Type} (call_method : method -> event -> U -> res unit * U)
        (obj : pyobject) (dp_ : string) (old new : pyval)
        (m : method) (ev : event) (w : world U) :
  fst (_execute call_method m ev w) = Ret tt
  ∧ log (snd (_execute call_method m ev w))
    = log w ++ handler_log call_method m ev (user w)
  ∧ called (snd (_execute call_method m ev w)) = called w ++ [(m, ev)]
  ∧ let r := datapointNotify call_method obj dp_ old new w in
    let l := jobs_of w (oid obj) dp_ in
    match members obj !! "name" with
    | Some _ =>
        fst r = Ret tt
        ∧ called (snd r) = called w ++ inline_calls dp_ old new l
        ∧ log (snd r)
          = log w ++ LogDebug "Notifier.datapointNotify()"
                :: notify_trace call_method dp_ old new l (user w)
    | None => r = (Exc (Exn "AttributeError"), w)
    end.
Proof.
  destruct (execute_returns call_method m ev w) as (w1 & E1 & _ & Hc1 & _ & Hl).
  rewrite E1. cbn [fst snd]. unfold handler_log.
  split; [reflexivity|]. split; [exact Hl|]. split; [exact Hc1|].
  cbv zeta. destruct (members obj !! "name") as [a|] eqn:Hn.
  - assert (Hs : is_Some (members obj !! "name")) by (rewrite Hn; eauto).
    pose proof (datapointNotify_trace call_method obj dp_ old new w Hs) as Ht.
    destruct (datapointNotify_calls call_method obj dp_ old new w Hs)
      as (w2 & E2 & _ & _ & Hc).
    rewrite E2 in *. cbn [fst snd] in *. auto.
  - apply datapointNotify_nameless. exact Hn.
Qed.

(** Handler isolation on a concrete run: [tempChanged] raises, and
    [doorChanged], registered after it on the same datapoint, is still
    called. *)
Example raising_handler_does_not_stop_next :
  let w := installed [(tempChanged, "door_1", "change", false);
                      (doorChanged, "door_1", "change", false)] [alertFB] in
  let r := datapointNotify bodies alertFB "door_1" (VStr "Close") (VStr "Open") w in
  fst r = Ret tt
  ∧ List.map (fun c => fn_name (im_func c.1)) (called (snd r))
    = ["tempChanged"; "doorChanged"]
  ∧ List.filter (fun e => bool_decide (e = LogException "Notifier._execute()"))
                (log (snd r))
    = [LogException "Notifier._execute()"]
  ∧ user (snd r) = 1%nat.
Proof. vm_compute. auto. Qed.

(** C6, what the code does for [thread=True]: the turn of the loop for a
    job marked [thread=True] returns without calling the handler and without
    starting a worker; when the job's condition is satisfied, all it leaves
    is the logged exception. *)
Theorem threaded_job_never_runs
        {U : Type} (call_method : method -> event -> U -> res unit * U)
        (dp_ : string) (old new : pyval) (m : method) (c : string) (w : world U) :
  let r := notify_job call_method dp_ old new (m, c, true) w in
  fst r = Ret tt
  ∧ called (snd r) = called w
  ∧ started (snd r) = started w
  ∧ log (snd r) = log w ++
      (if fires old new (m, c, true)
       then [LogDebug "Notifier.datapointNotify(): trigger method";
             LogException "Notifier.datapointNotify()"]
       else []).
Proof.
  destruct (notify_job_threaded call_method dp_ old new m c w)
    as (w' & E & _ & Hs & Hc & Hl).
  cbv zeta. rewrite E. simpl. auto.
Qed.

(** C10: [doRegisterJobs(obj)] adds a job only for a pending entry whose
    function is the very function [obj] holds under that function's name,
    bound to [obj]; so a table in which every job is a decorated function
    bound to its instance stays such a table, and a function that was never
    decorated is never registered, whatever its name. *)
Theorem doRegisterJobs_binds_decorated_only
        {U : Type} (obj : pyobject) (w : world U) :
  table_ok w →
  let w' := snd (doRegisterJobs obj w) in
  (∀ o dp_ j, j ∈ jobs_of w' o dp_ →
     j ∈ jobs_of w o dp_
     ∨ (o = oid obj ∧ ∃ p, p ∈ _pendingFuncs w ∧ bound_from obj p dp_ j))
  ∧ table_ok w'
  ∧ (∀ g, (∀ p, p ∈ _pendingFuncs w → p.1.2 ≠ g) →
       ∀ o dp_ j, j ∈ jobs_of w' o dp_ → im_func j.1.1 ≠ g).
Proof.
  intros Hok.
  destruct (doRegisterJobs_spec obj w) as (r & w1 & E & Hp & Hj).
  cbv zeta. rewrite E. simpl.
  assert (Hok' : table_ok w1).
  { intros o dp_ j Hin. rewrite Hp.
    destruct (Hj _ _ _ Hin) as [Hold|(-> & p & Hin' & Hb)]; [by apply Hok|].
    destruct p as [[type_ func] [[pdp pc] pt]].
    destruct Hb as (_ & -> & ->). simpl. split; [reflexivity|].
    exists type_. exact Hin'. }
  split; [exact Hj|]. split; [exact Hok'|].
  intros g Hg o dp_ j Hin.
  destruct (Hok' _ _ _ Hin) as (_ & type_ & Hin').
  rewrite Hp in Hin'. exact (Hg _ Hin').
Qed.

(** The table of a fresh notifier with pending declarations is in order, and
    so it is after registering an instance of another class whose method
    merely carries the name of a decorated function: nothing is bound. *)
Lemma doRegisterJobs_binds_decorated_only_witness :
  let w := installed [(tempChanged, "temp", "always", false)] [] in
  table_ok w
  ∧ table_ok (snd (doRegisterJobs otherFB w))
  ∧ jobs_of (snd (doRegisterJobs otherFB w)) 2 "temp" = [].
Proof.
  cbv zeta.
  assert (H : table_ok (installed [(tempChanged, "temp", "always", false)] [])).
  { intros o dp_ j Hin. unfold jobs_of in Hin. simpl in Hin.
    rewrite lookup_empty in Hin. by apply elem_of_nil in Hin. }
  split; [exact H|]. split.
  - exact (proj1 (proj2 (doRegisterJobs_binds_decorated_only otherFB _ H))).
  - vm_compute. reflexivity.
Defined.

End NotifierProofs.

(** ** The link data service: properties *)

Module L_DataServiceProofs.
Import L_DataService L_DataServiceSpec.

Section Proofs.
Context {U : Type}.
Variable dataInd_body : nat -> CEMILData -> U -> res unit * U.

(** One turn of the worker loop on a drained frame: it returns, leaves the
    service alone, and makes exactly the [dataInd] calls owed to the frame. *)
Lemma run_once_frame c (w : world U) :
  ∃ w', run_once dataInd_body (Ret c) w = (Ret tt, w')
        ∧ keeps_service w w'
        ∧ indications w' = indications w ++ delivered c w.
Proof.
  unfold run_once, run_body, try_except, bind, remove, ret, get, delivered.
  unfold logger at 1. unfold modify at 1. cbn [_individualAddress _ldl].
  destruct (bool_decide (sourceAddress c ≠ _individualAddress w)); simpl;
    [destruct (bool_decide (messageCode c = MC_LDATA_IND)); simpl;
     [destruct (_ldl w) as [l|] eqn:El|]|].
  - unfold dataInd. simpl.
    destruct (dataInd_body l c (upper w)) as [[[]|e] u']; simpl;
      eexists; (split; [reflexivity|]); unfold keeps_service; simpl; auto 10.
  - eexists. split; [reflexivity|]. unfold keeps_service. simpl.
    rewrite app_nil_r. auto 10.
  - eexists. split; [reflexivity|]. unfold keeps_service. simpl.
    destruct (_ldl w); rewrite app_nil_r; auto 10.
  - eexists. split; [reflexivity|]. unfold keeps_service. simpl.
    destruct (_ldl w); rewrite app_nil_r; auto 10.
Qed.

(** One turn of the worker loop when [remove()] raises: the exception is
    logged and the turn returns. *)
Lemma run_once_raise e (w : world U) :
  ∃ w', run_once dataInd_body (Exc e) w = (Ret tt, w')
        ∧ keeps_service w w'
        ∧ indications w' = indications w.
Proof.
  eexists. split; [reflexivity|]. unfold keeps_service. simpl. auto 10.
Qed.

(** The loop never lets an exception escape; it ends only with [_running]
    cleared, and while [_running] is set it goes on until the queue is
    empty. *)
Lemma run_loop_outcome (inq : list inbound) : ∀ w : world U,
  match run_loop dataInd_body inq w with
  | Raised _ _ => False
  | Ended w' => _running w' = false
  | Blocked w' => _running w' = true
  end.
Proof.
  induction inq as [|[c|e|] inq IH]; intros w; cbn [run_loop].
  - destruct (_running w) eqn:E; simpl; auto.
  - destruct (_running w) eqn:E; [|simpl; auto].
    destruct (run_once_frame c w) as (w' & -> & _). apply IH.
  - destruct (_running w) eqn:E; [|simpl; auto].
    destruct (run_once_raise e w) as (w' & -> & _). apply IH.
  - apply IH.
Qed.

Lemma delivered_elem l c c0 (w : world U) :
  (l, c) ∈ delivered c0 w → c = c0.
Proof.
  unfold delivered. destruct (_ldl w); [|by intros ?%elem_of_nil].
  destruct (_ && _); [|by intros ?%elem_of_nil].
  intros H%list_elem_of_singleton. congruence.
Qed.

Lemma delivered_stable c (w w' : world U) :
  keeps_service w w' → delivered c w' = delivered c w.
Proof. intros (Hia & _ & Hl & _). unfold delivered. by rewrite Hia, Hl. Qed.

(** Every [dataInd] call made during a run is owed to a frame that was
    drained from the queue. *)
Lemma run_loop_indications (inq : list inbound) : ∀ (w : world U) l c,
  (l, c) ∈ indications (final (run_loop dataInd_body inq w)) →
  (l, c) ∈ indications w
  ∨ (Removed c ∈ inq ∧ (l, c) ∈ delivered c w).
Proof.
  induction inq as [|[c0|e|] inq IH]; intros w l c; cbn [run_loop].
  - destruct (_running w); simpl; auto.
  - destruct (_running w); [|simpl; auto].
    destruct (run_once_frame c0 w) as (w' & -> & Hk & Hi).
    intros Hin. destruct (IH w' l c Hin) as [Hold|[Hin' Hd]].
    + rewrite Hi in Hold. apply elem_of_app in Hold as [Hold|Hnew]; [auto|].
      right. pose proof (delivered_elem _ _ _ _ Hnew) as ->.
      split; [left|exact Hnew].
    + right. split; [by right|].
      by rewrite <- (delivered_stable c w w' Hk).
  - destruct (_running w); [|simpl; auto].
    destruct (run_once_raise e w) as (w' & -> & Hk & Hi).
    intros Hin. destruct (IH w' l c Hin) as [Hold|[Hin' Hd]].
    + rewrite Hi in Hold. auto.
    + right. split; [by right|].
      by rewrite <- (delivered_stable c w w' Hk).
  - intros Hin. destruct (IH _ l c Hin) as [Hold|[Hin' Hd]]; [auto|].
    right. split; [by right|exact Hd].
Qed.

Lemma delivered_own c (w : world U) :
  sourceAddress c = _individualAddress w → delivered c w = [].
Proof.
  intros H. unfold delivered. destruct (_ldl w); [|reflexivity].
  rewrite (bool_decide_eq_false_2 _) by (intros Hne; exact (Hne H)).
  reflexivity.
Qed.

Lemma run_indications (inq : list inbound) (w : world U) l c :
  (l, c) ∈ indications (final (run dataInd_body inq w)) →
  (l, c) ∈ indications w
  ∨ (Removed c ∈ inq ∧ (l, c) ∈ delivered c w).
Proof. unfold run. intros H. apply run_loop_indications in H. exact H. Qed.

End Proofs.

Section DataReq.
Context {U : Type}.

Lemma dataReq_send_spec c (w : world U) :
  let c' := set_sourceAddress (_individualAddress w) c in
  ∃ w1, dataReq_send c w = (Ret (length (transmissions w), c'), w1)
        ∧ transmissions w1
          = transmissions w ++ [set_held true (new_Transmission c')]
        ∧ _outQueue w1 = _outQueue w ++ [(length (transmissions w), priority c)]
        ∧ _individualAddress w1 = _individualAddress w
        ∧ _ldl w1 = _ldl w ∧ _running w1 = _running w
        ∧ indications w1 = indications w ∧ upper w1 = upper w.
Proof.
  cbv zeta.
  unfold dataReq_send, bind, logger, modify, get, alloc_Transmission,
    update_Transmission, outQueue_add, ret, frame. simpl.
  eexists. split; [reflexivity|]. simpl.
  rewrite alter_app_r_alt by lia. rewrite Nat.sub_diag. simpl.
  repeat split; reflexivity.
Qed.

Lemma wait_confirm_unfold (env : list env_step) ref (w : world U) :
  wait_confirm env ref w =
  match transmissions w !! ref with
  | None => None
  | Some t =>
      if waitConfirm t then
        match env with
        | [] => None
        | e :: env' =>
            wait_confirm env' ref
              (set_transmissions (alter (apply_env e) ref (transmissions w)) w)
        end
      else Some w
  end.
Proof. destruct env; reflexivity. Qed.

Lemma apply_env_waiting e t :
  keeps_waiting e = true → waitConfirm t = true →
  waitConfirm (apply_env e t) = true
  ∧ payload (apply_env e t) = payload t ∧ held (apply_env e t) = held t.
Proof. destruct e as [[wc r]|]; simpl; intros; subst; auto. Qed.


(** Once the environment clears the latch, the wait returns, and the
    transmission carries the result set with it. *)
Lemma wait_confirm_returns ref r post (pre : list env_step) : ∀ (w : world U) t,
  transmissions w !! ref = Some t → waitConfirm t = true →
  Forall (fun e => keeps_waiting e = true) pre →
  ∃ w2, wait_confirm (pre ++ Some (false, r) :: post) ref w = Some w2
        ∧ keeps_but_transmissions w w2
        ∧ transmissions w2 !! ref
          = Some {| payload := payload t; waitConfirm := false;
                    result := r; held := held t |}
        ∧ ∀ i, i ≠ ref → transmissions w2 !! i = transmissions w !! i.
Proof.
  induction pre as [|e pre IH]; intros w t Ht Hw Hk.
  - simpl app. rewrite wait_confirm_unfold, Ht, Hw.
    rewrite wait_confirm_unfold. simpl.
    rewrite list_lookup_alter_eq, Ht. simpl.
    eexists. split; [reflexivity|]. unfold keeps_but_transmissions. simpl.
    split; [auto 10|]. rewrite list_lookup_alter_eq, Ht. simpl.
    split; [reflexivity|].
    intros i Hi. by rewrite list_lookup_alter_ne.
  - simpl app. rewrite wait_confirm_unfold, Ht, Hw.
    inversion Hk as [|? ? He Hk']; subst.
    destruct (apply_env_waiting e t He Hw) as (Hw' & Hp & Hh).
    edestruct (IH (set_transmissions (alter (apply_env e) ref (transmissions w)) w)
                  (apply_env e t)) as (w2 & -> & Hkeep & Hr & Ho);
      [simpl; by rewrite list_lookup_alter_eq, Ht|exact Hw'|exact Hk'|].
    exists w2. split; [reflexivity|]. split; [exact Hkeep|].
    rewrite Hr, Hp, Hh. split; [reflexivity|].
    intros i Hi. rewrite (Ho i Hi). simpl. by rewrite list_lookup_alter_ne.
Qed.

End DataReq.

(** C1: a drained frame whose source is the service's own individual
    address is dropped, whatever its message code: the turn of the loop only
    writes its debug line, and no run of the worker ever calls [dataInd] for
    such a frame. *)
Theorem own_frames_dropped
        {U : Type} (dataInd_body : nat -> CEMILData -> U -> res unit * U)
        (c : CEMILData) (w : world U) :
  sourceAddress c = _individualAddress w →
  run_once dataInd_body (Ret c) w
  = (Ret tt, snd (logger (LogDebug "L_DataService.run(): cEMI" c) w))
  ∧ indications (snd (run_once dataInd_body (Ret c) w)) = indications w
  ∧ ∀ inq l, (l, c) ∈ indications (final (run dataInd_body inq w)) →
             (l, c) ∈ indications w.
Proof.
  intros Hsrc.
  assert (E : run_once dataInd_body (Ret c) w
              = (Ret tt, snd (logger (LogDebug "L_DataService.run(): cEMI" c) w))).
  { unfold run_once, run_body, try_except, bind, remove, ret, get.
    unfold logger at 1. unfold modify at 1. cbn [_individualAddress].
    rewrite (bool_decide_eq_false_2 _) by (intros Hne; exact (Hne Hsrc)).
    reflexivity. }
  split; [exact E|]. split; [rewrite E; reflexivity|].
  intros inq l Hin.
  destruct (run_indications dataInd_body inq w l c Hin) as [Hold|[_ Hd]]; [exact Hold|].
  rewrite (delivered_own c w Hsrc) in Hd. by apply elem_of_nil in Hd.
Qed.

Lemma own_frames_dropped_witness :
  sourceAddress own_ind = _individualAddress service_with_listener
  ∧ indications (snd (run_once flaky_listener (Ret own_ind) service_with_listener))
    = indications service_with_listener.
Proof.
  split; [reflexivity|].
  exact (proj1 (proj2 (own_frames_dropped flaky_listener own_ind
                         service_with_listener eq_refl))).
Defined.

(** C2: with a listener set, a drained frame with a foreign source is handed
    to the listener's [dataInd] if and only if its message code is
    [L_Data.ind]; a frame with any other code, [L_Data.con] included, causes
    no upward call, and in no case does the turn touch the out queue or a
    transmission. *)
Theorem foreign_frames_delivered_iff_ind
        {U : Type} (dataInd_body : nat -> CEMILData -> U -> res unit * U)
        (c : CEMILData) (l : nat) (w : world U) :
  _ldl w = Some l →
  sourceAddress c ≠ _individualAddress w →
  let w' := snd (run_once dataInd_body (Ret c) w) in
  (indications w' = indications w ++ [(l, c)] ↔ messageCode c = MC_LDATA_IND)
  ∧ (messageCode c ≠ MC_LDATA_IND → indications w' = indications w)
  ∧ (messageCode c = MC_LDATA_CON → indications w' = indications w)
  ∧ transmissions w' = transmissions w
  ∧ _outQueue w' = _outQueue w.
Proof.
  intros Hl Hsrc.
  destruct (run_once_frame dataInd_body c w) as (w1 & E & (_ & Hq & _ & _ & Ht) & Hi).
  cbv zeta. rewrite E. cbn [snd].
  unfold delivered in Hi. rewrite Hl in Hi.
  rewrite (bool_decide_eq_true_2 _ Hsrc) in Hi. cbn [andb] in Hi.
  assert (Hno : messageCode c ≠ MC_LDATA_IND → indications w1 = indications w).
  { intros Hmc. rewrite (bool_decide_eq_false_2 _ Hmc) in Hi.
    by rewrite app_nil_r in Hi. }
  split; [|split; [exact Hno|split; [|split; [exact Ht|exact Hq]]]].
  - split.
    + intros Hd. destruct (decide (messageCode c = MC_LDATA_IND)) as [|Hmc]; [done|].
      rewrite (Hno Hmc) in Hd.
      apply (f_equal length) in Hd. rewrite length_app in Hd. simpl in Hd. lia.
    + intros Hmc. by rewrite (bool_decide_eq_true_2 _ Hmc) in Hi.
  - intros Hmc. apply Hno. rewrite Hmc. discriminate.
Qed.

Lemma foreign_frames_delivered_iff_ind_witness :
  _ldl service_with_listener = Some 5%nat
  ∧ sourceAddress foreign_con ≠ _individualAddress service_with_listener
  ∧ indications (snd (run_once flaky_listener (Ret foreign_con) service_with_listener))
    = indications service_with_listener.
Proof.
  split; [reflexivity|]. split; [discriminate|].
  refine (proj1 (proj2 (proj2 (foreign_frames_delivered_iff_ind flaky_listener
            foreign_con 5%nat service_with_listener eq_refl _))) eq_refl).
  discriminate.
Defined.

(** C9: without a listener, an inbound [L_Data.ind] frame with a foreign
    source is dropped with a warning and the turn returns normally; and
    whatever the queue hands out and whatever a listener does, a run of the
    worker never ends by an exception: it ends only once [_running] is
    cleared, and otherwise goes on until it waits on the empty queue. *)
Theorem no_listener_warns_and_loop_survives
        {U : Type} (dataInd_body : nat -> CEMILData -> U -> res unit * U)
        (c : CEMILData) (w : world U) :
  _ldl w = None →
  sourceAddress c ≠ _individualAddress w →
  messageCode c = MC_LDATA_IND →
  run_once dataInd_body (Ret c) w
  = (Ret tt,
     snd (logger (LogWarning "L_GroupDataService.run(): not listener defined")
            (snd (logger (LogDebug "L_DataService.run(): cEMI" c) w))))
  ∧ indications (snd (run_once dataInd_body (Ret c) w)) = indications w
  ∧ ∀ (inq : list inbound) (w0 : world U),
      match run dataInd_body inq w0 with
      | Raised _ _ => False
      | Ended w' => _running w' = false
      | Blocked w' => _running w' = true
      end.
Proof.
  intros Hl Hsrc Hmc.
  assert (E : run_once dataInd_body (Ret c) w
    = (Ret tt,
       snd (logger (LogWarning "L_GroupDataService.run(): not listener defined")
              (snd (logger (LogDebug "L_DataService.run(): cEMI" c) w))))).
  { destruct w as [ia q ldl rn ts lg ind up]. simpl in Hl, Hsrc. subst ldl.
    unfold run_once, run_body, try_except, bind, remove, ret, get.
    unfold logger at 1. unfold modify at 1. cbn [_individualAddress _ldl].
    rewrite (bool_decide_eq_true_2 _ Hsrc), (bool_decide_eq_true_2 _ Hmc).
    reflexivity. }
  split; [exact E|]. split; [rewrite E; reflexivity|].
  intros inq w0. unfold run. apply run_loop_outcome.
Qed.

Lemma no_listener_warns_and_loop_survives_witness :
  _ldl service = None
  ∧ sourceAddress foreign_ind ≠ _individualAddress service
  ∧ messageCode foreign_ind = MC_LDATA_IND
  ∧ fst (run_once flaky_listener (Ret foreign_ind) service) = Ret tt.
Proof.
  split; [reflexivity|]. split; [discriminate|]. split; [reflexivity|].
  refine (f_equal fst (proj1 (no_listener_warns_and_loop_survives flaky_listener
            foreign_ind service eq_refl _ eq_refl))).
  discriminate.
Defined.



(** A run in which the listener raises and the queue raises: both are
    logged, the loop goes on, and it ends at the [stop()]. *)
Example run_survives_exceptions :
  let o := run flaky_listener
               [Removed foreign_ind; Removed foreign_ind;
                RemoveRaises (Exn "RuntimeError"); Removed own_ind;
                Removed foreign_con; Removed foreign_ind; StopCalled;
                Removed foreign_ind]
               service_with_listener in
  (∃ w, o = Ended w)
  ∧ indications (final o) = [(5%nat, foreign_ind); (5%nat, foreign_ind); (5%nat, foreign_ind)]
  ∧ List.filter (fun e => bool_decide (e = LogException "L_DataService.run()"))
                (log (final o))
    = [LogException "L_DataService.run()"; LogException "L_DataService.run()"].
Proof. vm_compute. eauto. Qed.

End L_DataServiceProofs.

(** ** The multicast sockets: properties *)

Module MulticastSocketProofs.
Import MulticastSocket MulticastSocketSpec.

(** C7, counterexample: the transmit socket built with the default
    parameters has [IP_MULTICAST_LOOP] set to 1, that is, multicast loopback
    enabled, not disabled. *)
Lemma default_transmit_socket_loopback_not_disabled :
  let s := snd routing_socket in
  fst routing_socket = Ret tt
  ∧ getsockopt IP_MULTICAST_LOOP (options s) = Some 1
  ∧ getsockopt IP_MULTICAST_LOOP (options s) ≠ Some 0.
Proof. vm_compute. repeat split; discriminate. Qed.

(** C7, as the code has it: whenever a transmit socket is successfully constructed
    with the default parameters, the options set at construction give TTL 32
    and multicast loopback enabled ([IP_MULTICAST_LOOP] = 1, the default of
    [loop]). *)
Theorem default_transmit_socket_options
        (os_supports : sockopt -> bool) (os_bind : string * Z -> bool)
        (localAddr : string) (localPort : Z)
        (mcastAddr : string) (mcastPort : Z) (s : socket_) :
  MulticastSocketTransmit_default os_supports os_bind
    localAddr localPort mcastAddr mcastPort = (Ret tt, s) →
  getsockopt IP_MULTICAST_TTL (options s) = Some 32
  ∧ getsockopt IP_MULTICAST_LOOP (options s) = Some 1
  ∧ _ttl s = 32 ∧ _loop s = 1.
Proof.
  unfold MulticastSocketTransmit_default, MulticastSocketTransmit__init__,
    MulticastSocketBase__init__, MulticastSocketTransmit__bind, bind_,
    setsockopt, try_except, bind, modify, get, raise, logger, fresh.
  simpl.
  destruct (os_supports SO_REUSEADDR); simpl; [|discriminate].
  destruct (os_supports SO_REUSEPORT); simpl;
    (destruct (os_supports IP_MULTICAST_TTL); simpl; [|discriminate]);
    (destruct (os_supports IP_MULTICAST_LOOP); simpl; [|discriminate]);
    (destruct (os_bind (localAddr, localPort)); simpl; [|discriminate]);
    intros [= <-]; simpl; auto.
Qed.

Lemma default_transmit_socket_options_witness :
  MulticastSocketTransmit_default os_without_reuseport bind_ok
    "192.168.1.10" 0 "224.0.23.12" 3671
  = (Ret tt, snd (MulticastSocketTransmit_default os_without_reuseport bind_ok
                    "192.168.1.10" 0 "224.0.23.12" 3671))
  ∧ getsockopt IP_MULTICAST_LOOP
      (options (snd (MulticastSocketTransmit_default os_without_reuseport bind_ok
                       "192.168.1.10" 0 "224.0.23.12" 3671))) = Some 1.
Proof.
  split; [reflexivity|].
  exact (proj1 (proj2 (default_transmit_socket_options os_without_reuseport bind_ok
                         "192.168.1.10" 0 "224.0.23.12" 3671 _ eq_refl))).
Defined.

(** C8, counterexample: a send that delivers none of the seventeen
    octets makes [transmit] return normally; a send that delivers five of
    them makes it raise [IOError], which is not a [TransceiverError]. *)
Lemma partial_send_not_always_TransceiverError :
  let s := snd routing_socket in
  transmit (sends 0) datagram s = (Ret tt, s)
  ∧ transmit (sends 5) datagram s = (Exc (Exn "IOError"), s)
  ∧ Exn "IOError" ≠ Exn "TransceiverError".
Proof. vm_compute. repeat split; discriminate. Qed.

(** C8, as the code has it: when the underlying send reports [l] octets with
    [0 < l < len(data)], [transmit] raises [IOError] and leaves the socket as
    it was. *)
Theorem transmit_partial_send_raises_IOError
        (os_sendto : list Z -> string * Z -> res Z)
        (data : list Z) (l : Z) (s : socket_) :
  os_sendto data (_mcastAddr s, _mcastPort s) = Ret l →
  0 < l < Z.of_nat (length data) →
  transmit os_sendto data s = (Exc (Exn "IOError"), s).
Proof.
  intros Hs [Hpos Hlt].
  unfold transmit, sendto, bind, get. rewrite Hs. unfold ret.
  rewrite (bool_decide_eq_true_2 (l > 0)) by lia.
  rewrite (bool_decide_eq_true_2 (l < Z.of_nat (length data))) by lia.
  reflexivity.
Qed.

Lemma transmit_partial_send_raises_IOError_witness :
  sends 5 datagram (_mcastAddr (snd routing_socket), _mcastPort (snd routing_socket))
  = Ret 5
  ∧ 0 < 5 < Z.of_nat (length datagram)
  ∧ transmit (sends 5) datagram (snd routing_socket)
    = (Exc (Exn "IOError"), snd routing_socket).
Proof.
  split; [reflexivity|]. split; [simpl; lia|].
  apply (transmit_partial_send_raises_IOError (sends 5) datagram 5 (snd routing_socket)).
  - reflexivity.
  - simpl. lia.
Defined.

(** In every other case of a send that returns ([l <= 0], or all octets
    delivered), [transmit] returns normally. *)
Lemma transmit_returns_otherwise
      (os_sendto : list Z -> string * Z -> res Z)
      (data : list Z) (l : Z) (s : socket_) :
  os_sendto data (_mcastAddr s, _mcastPort s) = Ret l →
  l <= 0 ∨ Z.of_nat (length data) <= l →
  transmit os_sendto data s = (Ret tt, s).
Proof.
  intros Hs Hl.
  unfold transmit, sendto, bind, get. rewrite Hs. unfold ret.
  destruct Hl.
  - rewrite (bool_decide_eq_false_2 (l > 0)) by lia. reflexivity.
  - rewrite (bool_decide_eq_false_2 (l < Z.of_nat (length data))) by lia.
    rewrite andb_false_r. reflexivity.
Qed.

End MulticastSocketProofs.

(** ** The notifier: declaration, registration and dispatch together *)

Module NotifierExtra.
Import Notifier NotifierSpec NotifierMore.

Section Registration.
Context {U : Type}.

Lemma store_job_exact o dp_ j (w : world U) :
  ∃ w', store_job o dp_ j w = (Ret tt, w')
        ∧ _pendingFuncs w' = _pendingFuncs w
        ∧ keeps_calls w w'
        ∧ ∀ o' dp', jobs_of w' o' dp'
            = jobs_of w o' dp'
              ++ (if bool_decide (o' = o) && bool_decide (dp' = dp_) then [j] else []).
Proof.
  unfold store_job, bind, get.
  destruct (_datapointJobs w !! o) as [byDp|] eqn:E1;
    [destruct (byDp !! dp_) as [l|] eqn:E2|];
    (eexists; split; [reflexivity|]; split; [reflexivity|];
     split; [by unfold keeps_calls|]);
    intros o' dp'; unfold jobs_of; simpl;
    (destruct (decide (o' = o)) as [->|Ho];
       [rewrite (bool_decide_eq_true_2 (o = o)) by done;
        rewrite lookup_insert_eq, E1
       |rewrite (bool_decide_eq_false_2 (o' = o)) by done;
        rewrite lookup_insert_ne by congruence; simpl;
        by rewrite app_nil_r]);
    (destruct (decide (dp' = dp_)) as [->|Hd];
       [rewrite (bool_decide_eq_true_2 (dp_ = dp_)) by done;
        rewrite ?lookup_insert_eq, ?lookup_singleton_eq, ?E2
       |rewrite (bool_decide_eq_false_2 (dp' = dp_)) by done;
        rewrite ?lookup_insert_ne, ?lookup_singleton_ne by congruence]);
    simpl; rewrite ?lookup_empty, ?app_nil_r; reflexivity.
Qed.

Lemma register_pending_exact obj p (w : world U) :
  members obj !! fn_name p.1.2 ≠ Some MOther →
  ∃ w', register_pending obj p w = (Ret tt, w')
        ∧ _pendingFuncs w' = _pendingFuncs w
        ∧ keeps_calls w w'
        ∧ ∀ o dp_, jobs_of w' o dp_
            = jobs_of w o dp_
              ++ (if bool_decide (o = oid obj) then binding obj dp_ p else []).
Proof.
  destruct p as [[type_ func] [[pdp pc] pt]]. simpl. intros Hno.
  unfold register_pending, getattr, func_name, bind, logger, modify, binding.
  destruct (members obj !! fn_name func) as [[f| |]|] eqn:E; simpl;
    [| |done|].
  - destruct (decide (f = func)) as [->|Hf].
    + rewrite (bool_decide_eq_true_2 (func = func)) by done.
      destruct (bool_decide (type_ = "datapoint")); simpl.
      * match goal with
        | |- context [store_job ?o ?d ?j ?w0] =>
            destruct (store_job_exact o d j w0) as (w' & -> & Hp & Hk & Hj)
        end.
        exists w'. split; [reflexivity|]. split; [exact Hp|]. split; [exact Hk|].
        intros o dp_. rewrite Hj. unfold jobs_of. simpl.
        rewrite (bool_decide_ext (dp_ = pdp) (pdp = dp_)) by (split; congruence).
        destruct (bool_decide (o = oid obj)); reflexivity.
      * eexists. split; [reflexivity|]. split; [reflexivity|].
        split; [by unfold keeps_calls|].
        intros o dp_. destruct (bool_decide (o = oid obj)); by rewrite app_nil_r.
    + rewrite (bool_decide_eq_false_2 (f = func)) by done.
      eexists. split; [reflexivity|]. split; [reflexivity|].
      split; [by unfold keeps_calls|].
      intros o dp_. destruct (bool_decide (o = oid obj)); by rewrite app_nil_r.
  - eexists. split; [reflexivity|]. split; [reflexivity|].
    split; [by unfold keeps_calls|].
    intros o dp_. destruct (bool_decide (o = oid obj)); by rewrite app_nil_r.
  - eexists. split; [reflexivity|]. split; [reflexivity|].
    split; [by unfold keeps_calls|].
    intros o dp_. destruct (bool_decide (o = oid obj)); by rewrite app_nil_r.
Qed.

Lemma no_clash_cons obj p l :
  no_clash obj (p :: l) ↔ members obj !! fn_name p.1.2 ≠ Some MOther ∧ no_clash obj l.
Proof.
  unfold no_clash. split.
  - intros H. split; [apply H; left|intros q Hq; apply H; by right].
  - intros [H1 H2] q [->|Hq]%elem_of_cons; auto.
Qed.

Lemma register_loop_exact obj (l : list pending) : ∀ w : world U,
  no_clash obj l →
  ∃ w', for_ l (register_pending obj) w = (Ret tt, w')
        ∧ _pendingFuncs w' = _pendingFuncs w
        ∧ keeps_calls w w'
        ∧ ∀ o dp_, jobs_of w' o dp_
            = jobs_of w o dp_
              ++ (if bool_decide (o = oid obj) then bindings obj l dp_ else []).
Proof.
  induction l as [|p l IH]; intros w Hno.
  - exists w. split; [reflexivity|]. split; [reflexivity|].
    split; [by unfold keeps_calls|].
    intros o dp_. destruct (bool_decide (o = oid obj)); by rewrite app_nil_r.
  - apply no_clash_cons in Hno as [Hp Hl].
    rewrite NotifierProofs.for_cons.
    destruct (register_pending_exact obj p w Hp) as (w1 & -> & Hp1 & (Hc1 & Hs1 & Hu1) & Hj1).
    destruct (IH w1 Hl) as (w' & -> & Hp' & (Hc' & Hs' & Hu') & Hj').
    exists w'. split; [reflexivity|]. split; [congruence|].
    split; [unfold keeps_calls; repeat split; congruence|].
    intros o dp_. rewrite Hj', Hj1, <- app_assoc. f_equal.
    unfold bindings. simpl.
    destruct (bool_decide (o = oid obj)); reflexivity.
Qed.

Lemma doRegisterJobs_exact obj (w : world U) :
  no_clash obj (_pendingFuncs w) →
  ∃ w', doRegisterJobs obj w = (Ret tt, w')
        ∧ _pendingFuncs w' = _pendingFuncs w
        ∧ keeps_calls w w'
        ∧ ∀ o dp_, jobs_of w' o dp_
            = jobs_of w o dp_
              ++ (if bool_decide (o = oid obj)
                  then bindings obj (_pendingFuncs w) dp_ else []).
Proof.
  intros Hno. unfold doRegisterJobs, bind, logger, modify, get. simpl.
  match goal with
  | |- context [for_ ?l ?f ?w0] =>
      destruct (register_loop_exact obj l w0 Hno) as (w' & -> & Hp & Hk & Hj)
  end.
  exists w'. split; [reflexivity|]. split; [exact Hp|]. split; [exact Hk|].
  exact Hj.
Qed.

End Registration.

Section Dispatch.
Context {U : Type}.
Variable call_method : method -> event -> U -> res unit * U.

Lemma inline_calls_app dp_ old new (l1 l2 : list job) :
  inline_calls dp_ old new (l1 ++ l2)
  = inline_calls dp_ old new l1 ++ inline_calls dp_ old new l2.
Proof.
  unfold inline_calls, due_calls.
  by rewrite !List.filter_app, List.map_app.
Qed.

Lemma execute_effect m ev (w : world U) :
  ∃ w', _execute call_method m ev w = (Ret tt, w')
        ∧ keeps_tables w w'
        ∧ started w' = started w
        ∧ called w' = called w ++ [(m, ev)]
        ∧ user w' = snd (call_method m ev (user w)).
Proof.
  unfold _execute, try_except, invoke, logger, modify.
  destruct (call_method m ev (user w)) as [[[]|e] u'] eqn:E; simpl;
    eexists; (split; [reflexivity|]); unfold keeps_tables; simpl; auto.
Qed.

Lemma notify_job_effect dp_ old new (j : job) (w : world U) :
  ∃ w', notify_job call_method dp_ old new j w = (Ret tt, w')
        ∧ keeps_tables w w'
        ∧ started w' = started w
        ∧ called w' = called w ++ inline_calls dp_ old new [j]
        ∧ user w' = after_calls call_method (inline_calls dp_ old new [j]) (user w).
Proof.
  destruct j as [[m c] t].
  unfold notify_job. rewrite (NotifierProofs.triggers_fires call_method old new m c t).
  unfold inline_calls, due_calls, after_calls. simpl.
  destruct t; simpl.
  - destruct (fires old new (m, c, true)); simpl.
    + eexists. split; [reflexivity|]. unfold keeps_tables. simpl.
      rewrite app_nil_r. auto.
    + exists w. unfold keeps_tables, ret. rewrite app_nil_r. auto.
  - destruct (fires old new (m, c, false)); simpl.
    + unfold try_except, bind. unfold logger at 1. unfold modify at 1.
      match goal with
      | |- context [_execute call_method m ?ev ?w0] =>
          destruct (execute_effect m ev w0) as (w' & -> & [Hp Hj] & Hs & Hc & Hu)
      end.
      exists w'. simpl in *. unfold keeps_tables, event_of. simpl. auto.
    + exists w. unfold keeps_tables, ret. rewrite app_nil_r. auto.
Qed.

Lemma notify_jobs_effect dp_ old new (l : list job) : ∀ w : world U,
  ∃ w', for_ l (notify_job call_method dp_ old new) w = (Ret tt, w')
        ∧ keeps_tables w w'
        ∧ started w' = started w
        ∧ called w' = called w ++ inline_calls dp_ old new l
        ∧ user w' = after_calls call_method (inline_calls dp_ old new l) (user w).
Proof.
  induction l as [|j l IH]; intros w.
  - exists w. unfold keeps_tables. simpl. rewrite app_nil_r. auto.
  - rewrite NotifierProofs.for_cons.
    destruct (notify_job_effect dp_ old new j w)
      as (w1 & -> & [Hp Hj] & Hs & Hc & Hu).
    destruct (IH w1) as (w' & -> & [Hp' Hj'] & Hs' & Hc' & Hu').
    exists w'. split; [reflexivity|].
    change (j :: l) with ([j] ++ l). rewrite inline_calls_app.
    unfold keeps_tables, after_calls in *. rewrite fold_left_app.
    repeat split; try congruence.
    by rewrite Hc', Hc, <- app_assoc.
Qed.

Lemma datapointNotify_effect obj dp_ old new (w : world U) :
  is_Some (members obj !! "name") →
  let calls := inline_calls dp_ old new (jobs_of w (oid obj) dp_) in
  ∃ w', datapointNotify call_method obj dp_ old new w = (Ret tt, w')
        ∧ keeps_tables w w'
        ∧ started w' = started w
        ∧ called w' = called w ++ calls
        ∧ user w' = after_calls call_method calls (user w).
Proof.
  intros [a Ha]. cbv zeta.
  unfold datapointNotify, load_attr, jobs_of, bind, logger, modify, get.
  rewrite Ha. simpl.
  destruct (_datapointJobs w !! oid obj) as [byDp|] eqn:E1; simpl;
    [destruct (byDp !! dp_) as [l|] eqn:E2; simpl|].
  - match goal with
    | |- context [for_ l ?f ?w0] =>
        destruct (notify_jobs_effect dp_ old new l w0)
          as (w' & -> & [Hp Hj] & Hs & Hc & Hu)
    end.
    exists w'. unfold keeps_tables. simpl in *. auto.
  - eexists. split; [reflexivity|]. unfold keeps_tables. simpl.
    rewrite app_nil_r. auto.
  - eexists. split; [reflexivity|]. unfold keeps_tables. simpl.
    rewrite app_nil_r. auto.
Qed.

End Dispatch.

Import NotifierScenario.

(** X1: the decorator [datapoint(dp, condition, thread)] applied to a
    function hands the function back unwrapped and appends exactly one entry
    to [_pendingFuncs] when the condition is ["change"] or ["always"]; with
    any other condition it raises [NotifierValueError] and files nothing.
    The job table is untouched either way. *)
Theorem decorator_files_or_rejects
        {U : Type} (dp_ condition_ : string) (thread_ : bool)
        (func : pyfunction) (w : world U) :
  let r := (d <~ datapoint dp_ condition_ thread_ ;; d func) w in
  let valid := bool_decide (condition_ ∈ ["change"; "always"]) in
  fst r = (if valid then Ret func else Exc (Exn "NotifierValueError"))
  ∧ _pendingFuncs (snd r)
    = _pendingFuncs w
      ++ (if valid then [("datapoint", func, (dp_, condition_, thread_))] else [])
  ∧ _datapointJobs (snd r) = _datapointJobs w
  ∧ called (snd r) = called w.
Proof.
  cbv zeta.
  unfold datapoint, decorated, addDatapointJob, bind, logger, set_pending,
    modify, get, ret, raise. simpl.
  destruct (decide (condition_ ∈ ["change"; "always"])) as [Hin|Hout].
  - rewrite (bool_decide_eq_true_2 _ Hin).
    rewrite (bool_decide_eq_false_2 (condition_ ∉ _)) by (intros H; exact (H Hin)).
    simpl. auto.
  - rewrite (bool_decide_eq_false_2 _ Hout).
    rewrite (bool_decide_eq_true_2 (condition_ ∉ _) Hout).
    simpl. rewrite app_nil_r. auto.
Qed.

(** X2: when no pending function's name is taken on [obj] by a non-method
    attribute, [doRegisterJobs(obj)] returns normally, and the job list of
    every datapoint of [obj] grows, at its end and in declaration order, by
    exactly the pending functions that [obj] holds; the lists of every other
    instance, the pending list, the calls made and the user's state are
    unchanged. *)
Theorem doRegisterJobs_registers_all_in_order
        {U : Type} (obj : pyobject) (w : world U) :
  no_clash obj (_pendingFuncs w) →
  let r := doRegisterJobs obj w in
  fst r = Ret tt
  ∧ _pendingFuncs (snd r) = _pendingFuncs w
  ∧ keeps_calls w (snd r)
  ∧ (∀ dp_, jobs_of (snd r) (oid obj) dp_
            = jobs_of w (oid obj) dp_ ++ bindings obj (_pendingFuncs w) dp_)
  ∧ (∀ o dp_, o ≠ oid obj → jobs_of (snd r) o dp_ = jobs_of w o dp_).
Proof.
  intros Hno. cbv zeta.
  destruct (doRegisterJobs_exact obj w Hno) as (w' & -> & Hp & Hk & Hj).
  simpl. repeat split; try exact Hp; try apply Hk.
  - intros dp_. rewrite Hj. by rewrite bool_decide_eq_true_2.
  - intros o dp_ Ho. rewrite Hj. rewrite bool_decide_eq_false_2 by done.
    by rewrite app_nil_r.
Qed.

Lemma doRegisterJobs_registers_all_in_order_witness :
  let w := installed [(tempChanged, "temp", "change", false);
                      (doorChanged, "temp", "always", true)] [] in
  no_clash alertFB (_pendingFuncs w)
  ∧ jobs_of (snd (doRegisterJobs alertFB w)) (oid alertFB) "temp"
    = [({| im_self := 1; im_func := tempChanged |}, "change", false);
       ({| im_self := 1; im_func := doorChanged |}, "always", true)].
Proof.
  cbv zeta.
  assert (H : no_clash alertFB (_pendingFuncs
            (installed [(tempChanged, "temp", "change", false);
                        (doorChanged, "temp", "always", true)] []))).
  { intros p Hp. vm_compute in Hp.
    apply elem_of_cons in Hp as [->|Hp]; [vm_compute; discriminate|].
    apply elem_of_cons in Hp as [->|Hp]; [vm_compute; discriminate|].
    by apply elem_of_nil in Hp. }
  split; [exact H|].
  rewrite (proj1 (proj2 (proj2 (proj2
             (doRegisterJobs_registers_all_in_order alertFB _ H)))) "temp").
  vm_compute. reflexivity.
Defined.

(** X3: [doRegisterJobs] does not notice that an instance is registered
    already: registering it a second time files its jobs a second time, and
    a notification of the instance (which has a [name]) then calls each of
    its inline handlers twice. *)
Theorem double_registration_doubles_calls
        {U : Type} (call_method : method -> event -> U -> res unit * U)
        (obj : pyobject) (dp_ : string) (old new : pyval) (w : world U) :
  no_clash obj (_pendingFuncs w) →
  is_Some (members obj !! "name") →
  let b := bindings obj (_pendingFuncs w) dp_ in
  let w2 := snd (doRegisterJobs obj (snd (doRegisterJobs obj w))) in
  jobs_of w2 (oid obj) dp_ = jobs_of w (oid obj) dp_ ++ b ++ b
  ∧ called (snd (datapointNotify call_method obj dp_ old new w2))
    = called w ++ inline_calls dp_ old new (jobs_of w (oid obj) dp_)
      ++ inline_calls dp_ old new b ++ inline_calls dp_ old new b.
Proof.
  intros Hno Hname. cbv zeta.
  destruct (doRegisterJobs_exact obj w Hno) as (w1 & E1 & Hp1 & (Hc1 & _) & Hj1).
  rewrite E1. simpl.
  assert (Hno1 : no_clash obj (_pendingFuncs w1)) by (by rewrite Hp1).
  destruct (doRegisterJobs_exact obj w1 Hno1) as (w2 & E2 & Hp2 & (Hc2 & _) & Hj2).
  rewrite E2. simpl.
  assert (Hjobs : jobs_of w2 (oid obj) dp_
                  = jobs_of w (oid obj) dp_
                    ++ bindings obj (_pendingFuncs w) dp_
                    ++ bindings obj (_pendingFuncs w) dp_).
  { rewrite Hj2, Hj1, Hp1. rewrite bool_decide_eq_true_2 by done.
    by rewrite <- app_assoc. }
  split; [exact Hjobs|].
  destruct (datapointNotify_effect call_method obj dp_ old new w2 Hname)
    as (w3 & -> & _ & _ & Hc & _).
  simpl. rewrite Hc, Hjobs, !inline_calls_app, Hc2, Hc1. reflexivity.
Qed.

Lemma double_registration_doubles_calls_witness :
  let w := installed [(doorChanged, "door_1", "change", false)] [] in
  no_clash alertFB (_pendingFuncs w)
  ∧ is_Some (members alertFB !! "name")
  ∧ List.map (fun c => fn_name (im_func c.1))
      (called (snd (datapointNotify bodies alertFB "door_1" (VStr "Close") (VStr "Open")
                      (snd (doRegisterJobs alertFB (snd (doRegisterJobs alertFB w)))))))
    = ["doorChanged"; "doorChanged"].
Proof.
  cbv zeta.
  assert (H : no_clash alertFB (_pendingFuncs
            (installed [(doorChanged, "door_1", "change", false)] []))).
  { intros p Hp. vm_compute in Hp.
    apply elem_of_cons in Hp as [->|Hp]; [vm_compute; discriminate|].
    by apply elem_of_nil in Hp. }
  assert (Hn : is_Some (members alertFB !! "name")) by (by exists MOther).
  split; [exact H|]. split; [exact Hn|].
  rewrite (proj2 (double_registration_doubles_calls bodies alertFB "door_1"
                    (VStr "Close") (VStr "Open") _ H Hn)).
  vm_compute. reflexivity.
Defined.

(** X4: declaration, registration and dispatch fit together: a function
    decorated as an inline handler of a datapoint, and held under its name
    by an instance that has a [name], is called, bound to the instance and
    with the event record of the notification, on every notification of that
    datapoint that satisfies its condition. *)
Theorem decorated_handler_is_called
        {U : Type} (call_method : method -> event -> U -> res unit * U)
        (obj : pyobject) (func : pyfunction) (dp_ condition_ : string)
        (old new : pyval) (w : world U) :
  condition_ ∈ ["change"; "always"] →
  members obj !! fn_name func = Some (MFunction func) →
  is_Some (members obj !! "name") →
  no_clash obj (_pendingFuncs w) →
  let m := {| im_self := oid obj; im_func := func |} in
  fires old new (m, condition_, false) = true →
  let w1 := snd ((d <~ datapoint dp_ condition_ false ;; d func) w) in
  let w2 := snd (doRegisterJobs obj w1) in
  let r := datapointNotify call_method obj dp_ old new w2 in
  fst r = Ret tt
  ∧ (m, event_of dp_ old new (m, condition_, false)) ∈ called (snd r).
Proof.
  intros Hvalid Hmem Hname Hno m Hfires. cbv zeta.
  assert (Hp1 : _pendingFuncs
                  (snd ((d <~ datapoint dp_ condition_ false ;; d func) w))
                = _pendingFuncs w ++ [("datapoint", func, (dp_, condition_, false))]).
  { unfold datapoint, decorated, addDatapointJob, bind, logger, set_pending,
      modify, get, ret, raise. simpl.
    rewrite (bool_decide_eq_false_2 (condition_ ∉ _)) by (intros H; exact (H Hvalid)).
    reflexivity. }
  set (w1 := snd ((d <~ datapoint dp_ condition_ false ;; d func) w)) in *.
  assert (Hno1 : no_clash obj (_pendingFuncs w1)).
  { rewrite Hp1. intros p [Hp| ->%list_elem_of_singleton]%elem_of_app; [by apply Hno|].
    simpl. rewrite Hmem. discriminate. }
  destruct (doRegisterJobs_exact obj w1 Hno1) as (w2 & -> & _ & _ & Hj).
  simpl.
  destruct (datapointNotify_effect call_method obj dp_ old new w2 Hname)
    as (w3 & -> & _ & _ & Hc & _).
  simpl. split; [reflexivity|].
  rewrite Hc. apply elem_of_app. right.
  rewrite Hj, Hp1. rewrite bool_decide_eq_true_2 by done.
  unfold bindings. rewrite flat_map_app, app_assoc, inline_calls_app.
  apply elem_of_app. right.
  simpl. rewrite Hmem.
  rewrite !bool_decide_eq_true_2 by done. simpl.
  unfold inline_calls, due_calls. simpl. fold m. rewrite Hfires. simpl.
  apply list_elem_of_singleton. reflexivity.
Qed.

Lemma decorated_handler_is_called_witness :
  let m := {| im_self := 1; im_func := doorChanged |} in
  "always" ∈ ["change"; "always"]
  ∧ members alertFB !! fn_name doorChanged = Some (MFunction doorChanged)
  ∧ is_Some (members alertFB !! "name")
  ∧ no_clash alertFB (_pendingFuncs (init 0%nat))
  ∧ fires (VStr "Open") (VStr "Open") (m, "always", false) = true
  ∧ (m, event_of "door_1" (VStr "Open") (VStr "Open") (m, "always", false))
    ∈ called (snd (datapointNotify bodies alertFB "door_1" (VStr "Open") (VStr "Open")
                     (snd (doRegisterJobs alertFB
                             (snd ((d <~ datapoint "door_1" "always" false ;;
                                    d doorChanged) (init 0%nat))))))).
Proof.
  cbv zeta.
  assert (H1 : "always" ∈ ["change"; "always"]) by (right; left).
  assert (H2 : members alertFB !! fn_name doorChanged = Some (MFunction doorChanged))
    by reflexivity.
  assert (Hn : is_Some (members alertFB !! "name")) by (by exists MOther).
  assert (H3 : no_clash alertFB (_pendingFuncs (init 0%nat)))
    by (intros p Hp; by apply elem_of_nil in Hp).
  repeat (split; [done|]).
  exact (proj2 (decorated_handler_is_called bodies alertFB doorChanged "door_1"
                  "always" (VStr "Open") (VStr "Open") (init 0%nat)
                  H1 H2 Hn H3 eq_refl)).
Defined.

(** X5: a notification for an instance that has a [name] but no registered
    job for the datapoint (the instance or the datapoint is not a key of the
    table) does nothing but write its debug line: no handler is called and
    the user's state is as before. *)
Theorem notify_without_jobs_is_noop
        {U : Type} (call_method : method -> event -> U -> res unit * U)
        (obj : pyobject) (dp_ : string) (old new : pyval) (w : world U) :
  is_Some (members obj !! "name") →
  jobs_of w (oid obj) dp_ = [] →
  datapointNotify call_method obj dp_ old new w
  = (Ret tt, snd (logger (LogDebug "Notifier.datapointNotify()") w)).
Proof.
  intros [a Ha].
  unfold jobs_of, datapointNotify, load_attr, bind, logger, modify, get.
  rewrite Ha. simpl.
  destruct (_datapointJobs w !! oid obj) as [byDp|]; simpl; [|reflexivity].
  destruct (byDp !! dp_) as [l|]; simpl; [|reflexivity].
  intros ->. reflexivity.
Qed.

Lemma notify_without_jobs_is_noop_witness :
  let w := installed [(tempChanged, "temp", "always", false)] [alertFB] in
  is_Some (members alertFB !! "name")
  ∧ jobs_of w (oid alertFB) "door_1" = []
  ∧ called (snd (datapointNotify bodies alertFB "door_1" (VInt 1) (VInt 2) w)) = [].
Proof.
  cbv zeta.
  assert (Hn : is_Some (members alertFB !! "name")) by (by exists MOther).
  assert (H : jobs_of (installed [(tempChanged, "temp", "always", false)] [alertFB])
                (oid alertFB) "door_1" = []) by reflexivity.
  split; [exact Hn|]. split; [exact H|].
  rewrite (notify_without_jobs_is_noop bodies alertFB "door_1" (VInt 1) (VInt 2) _ Hn H).
  reflexivity.
Defined.

(** X6: a notification of an instance that has a [name] leaves the user's
    code in the state reached by running the bodies of the inline handlers
    due, one after the other in job order; what a handler did before it
    raised stays done, and the handlers after it start from there. *)
Theorem notify_runs_handlers_in_order
        {U : Type} (call_method : method -> event -> U -> res unit * U)
        (obj : pyobject) (dp_ : string) (old new : pyval) (w : world U) :
  is_Some (members obj !! "name") →
  user (snd (datapointNotify call_method obj dp_ old new w))
  = after_calls call_method
      (inline_calls dp_ old new (jobs_of w (oid obj) dp_)) (user w).
Proof.
  intros Hname.
  destruct (datapointNotify_effect call_method obj dp_ old new w Hname)
    as (w' & -> & _ & _ & _ & Hu).
  exact Hu.
Qed.

Lemma notify_runs_handlers_in_order_witness :
  let w := installed [(tempChanged, "door_1", "change", false);
                      (doorChanged, "door_1", "change", false);
                      (doorChanged, "door_1", "always", false)] [alertFB] in
  is_Some (members alertFB !! "name")
  ∧ user (snd (datapointNotify bodies alertFB "door_1" (VStr "Close") (VStr "Open") w))
    = 2%nat.
Proof.
  cbv zeta.
  assert (Hn : is_Some (members alertFB !! "name")) by (by exists MOther).
  split; [exact Hn|].
  rewrite (notify_runs_handlers_in_order bodies alertFB "door_1"
             (VStr "Close") (VStr "Open") _ Hn).
  vm_compute. reflexivity.
Defined.

(** X7: every condition on file is ["change"] or ["always"], and stays so
    under declaration, registration and notification; so every registered
    job is due whenever the value really changed. *)
Theorem conditions_stay_valid
        {U : Type} (call_method : method -> event -> U -> res unit * U)
        (w : world U) :
  conditions_ok w →
  (∀ func dp_ condition_ thread_,
     conditions_ok (snd (addDatapointJob func dp_ condition_ thread_ w)))
  ∧ (∀ obj, conditions_ok (snd (doRegisterJobs obj w)))
  ∧ (∀ obj dp_ old new,
       conditions_ok (snd (datapointNotify call_method obj dp_ old new w)))
  ∧ (∀ o dp_ j old new,
       j ∈ jobs_of w o dp_ → old ≠ new → fires old new j = true).
Proof.
  intros [Hpend Hjobs]. repeat split.
  - unfold addDatapointJob, bind, logger, set_pending, modify, get, raise, ret.
    simpl. destruct (decide (condition_ ∈ ["change"; "always"])) as [Hin|Hout].
    + rewrite (bool_decide_eq_false_2 (condition_ ∉ _)) by (intros H; exact (H Hin)).
      simpl. intros p [Hp| ->%list_elem_of_singleton]%elem_of_app; [by apply Hpend|].
      exact Hin.
    + rewrite (bool_decide_eq_true_2 (condition_ ∉ _) Hout). simpl. exact Hpend.
  - unfold addDatapointJob, bind, logger, set_pending, modify, get, raise, ret.
    simpl. destruct (bool_decide (condition_ ∉ ["change"; "always"])); exact Hjobs.
  - destruct (NotifierProofs.doRegisterJobs_spec obj w) as (r & w' & -> & Hp & _).
    simpl. rewrite Hp. exact Hpend.
  - destruct (NotifierProofs.doRegisterJobs_spec obj w) as (r & w' & -> & Hp & Hj).
    simpl. intros o dp_ j Hin.
    destruct (Hj _ _ _ Hin) as [Hold|(_ & p & Hpin & Hb)]; [by eapply Hjobs|].
    destruct p as [[type_ func] [[pdp pc] pt]].
    destruct Hb as (_ & _ & ->). simpl. exact (Hpend _ Hpin).
  - destruct (members obj !! "name") as [a|] eqn:Hn.
    + destruct (datapointNotify_effect call_method obj dp_ old new w)
        as (w' & -> & [Hp Hj] & _); [rewrite Hn; eauto|].
      simpl. rewrite Hp. exact Hpend.
    + rewrite (NotifierProofs.datapointNotify_nameless call_method _ _ _ _ _ Hn).
      exact Hpend.
  - destruct (members obj !! "name") as [a|] eqn:Hn.
    + destruct (datapointNotify_effect call_method obj dp_ old new w)
        as (w' & -> & [Hp Hj] & _); [rewrite Hn; eauto|].
      simpl. unfold jobs_of. rewrite Hj. exact Hjobs.
    + rewrite (NotifierProofs.datapointNotify_nameless call_method _ _ _ _ _ Hn).
      exact Hjobs.
  - intros o dp_ j old new Hin Hne. unfold fires.
    pose proof (Hjobs _ _ _ Hin) as [->|[->|[]%elem_of_nil]%elem_of_cons]%elem_of_cons.
    + by rewrite bool_decide_eq_true_2.
    + rewrite (bool_decide_eq_true_2 ("always" = "always")) by done.
      by rewrite orb_true_r.
Qed.

Lemma conditions_stay_valid_witness :
  conditions_ok (init 0%nat)
  ∧ conditions_ok (snd (doRegisterJobs alertFB
                          (snd (addDatapointJob tempChanged "temp" "always" true
                                  (init 0%nat))))).
Proof.
  assert (H : conditions_ok (init 0%nat)).
  { split; [intros p Hp; by apply elem_of_nil in Hp|].
    intros o dp_ j Hin. unfold jobs_of in Hin. simpl in Hin.
    rewrite lookup_empty in Hin. by apply elem_of_nil in Hin. }
  split; [exact H|].
  assert (H1 := proj1 (conditions_stay_valid bodies (init 0%nat) H)
                  tempChanged "temp" "always" true).
  exact (proj1 (proj2 (conditions_stay_valid bodies _ H1)) alertFB).
Defined.

End NotifierExtra.

(** ** The alert block behind the notifier *)

Module AlertFBProofs.
Import Notifier NotifierSpec NotifierMore AlertFB.

Lemma woven_door_jobs id :
  jobs_of (woven id) id "door_1"
  = [({| im_self := id; im_func := doorChanged |}, "change", false)]
  ∧ user (woven id) = [] ∧ called (woven id) = [].
Proof.
  unfold woven, bind.
  destruct (class_body (init ([] : list string))) as [r0 w0] eqn:E0.
  vm_compute in E0. injection E0 as <- <-.
  match goal with
  | |- context [doRegisterJobs ?o ?w0] =>
      destruct (NotifierExtra.doRegisterJobs_exact o w0) as (w1 & -> & _ & (Hc & _ & Hu) & Hj)
  end.
  { intros p Hp. simpl in Hp.
    repeat (apply elem_of_cons in Hp as [->|Hp]; [vm_compute; discriminate|]).
    by apply elem_of_nil in Hp. }
  simpl. rewrite Hj, Hc, Hu. simpl.
  rewrite bool_decide_eq_true_2 by done.
  split; [|split; reflexivity].
  vm_compute. reflexivity.
Qed.

(** X8: on an [AlertFB] instance woven into the notifier, a notification of
    [door_1] sends the alert mail exactly when the door went from ["Close"]
    to ["Open"] and the mail server accepts it, and sends nothing otherwise;
    a failure of the mail server never leaves the notification, and
    [tempChanged] is not called for the door. *)
Theorem door_alert_sent_on_opening
        (smtp : string -> bool)
        (tempChanged_body : event -> list string -> res unit * list string)
        (id : nat) (old new : pyval) :
  let r := datapointNotify (call smtp tempChanged_body) (instance id)
                           "door_1" old new (woven id) in
  fst r = Ret tt
  ∧ user (snd r)
    = (if bool_decide (old = VStr "Close" ∧ new = VStr "Open")
          && smtp (door_msg "door_1" "Open")
       then [door_msg "door_1" "Open"] else []).
Proof.
  cbv zeta.
  destruct (woven_door_jobs id) as (Hj & Hu & _).
  destruct (NotifierExtra.datapointNotify_effect (call smtp tempChanged_body)
              (instance id) "door_1" old new (woven id))
    as (w' & -> & _ & _ & _ & Hu'); [by exists MOther|].
  simpl. split; [reflexivity|].
  rewrite Hu'. change (oid (instance id)) with id. rewrite Hj, Hu.
  unfold inline_calls, due_calls, after_calls, fires. simpl.
  destruct (decide (old = new)) as [->|Hne].
  - rewrite (bool_decide_eq_false_2 ("change" = "change" ∧ new ≠ new)) by tauto.
    simpl.
    rewrite (bool_decide_eq_false_2 (new = VStr "Close" ∧ new = VStr "Open"))
      by (intros [-> [=]]).
    reflexivity.
  - rewrite (bool_decide_eq_true_2 ("change" = "change" ∧ old ≠ new)) by tauto.
    simpl. unfold call, doorChanged_body, sendEmail. simpl.
    destruct (decide (new = VStr "Open")) as [->|Hn];
      destruct (decide (old = VStr "Close")) as [->|Ho].
    + rewrite !bool_decide_eq_true_2 by done. simpl.
      destruct (smtp _); reflexivity.
    + rewrite (bool_decide_eq_false_2 (old = VStr "Close")) by done.
      rewrite (bool_decide_eq_false_2 (old = VStr "Close" ∧ _)) by tauto.
      rewrite andb_false_r. reflexivity.
    + rewrite (bool_decide_eq_false_2 (new = VStr "Open")) by done.
      rewrite (bool_decide_eq_false_2 (_ ∧ new = VStr "Open")) by tauto.
      reflexivity.
    + rewrite (bool_decide_eq_false_2 (new = VStr "Open")) by done.
      rewrite (bool_decide_eq_false_2 (_ ∧ new = VStr "Open")) by tauto.
      reflexivity.
Qed.

End AlertFBProofs.

(** ** The link data service: whole runs and successive requests *)

Module L_DataServiceExtra.
Import L_DataService L_DataServiceSpec L_DataServiceMore.

Section Run.
Context {U : Type}.
Variable dataInd_body : nat -> CEMILData -> U -> res unit * U.

Lemma run_once_effect r (w : world U) :
  let calls := match r with Ret c => delivered c w | Exc _ => [] end in
  ∃ w', run_once dataInd_body r w = (Ret tt, w')
        ∧ keeps_service w w'
        ∧ indications w' = indications w ++ calls
        ∧ upper w' = after_indications dataInd_body calls (upper w).
Proof.
  destruct r as [c|e]; cbv zeta.
  - unfold run_once, run_body, try_except, bind, remove, ret, get, delivered,
      after_indications.
    unfold logger at 1. unfold modify at 1. cbn [_individualAddress _ldl].
    destruct (bool_decide (sourceAddress c ≠ _individualAddress w)); simpl;
      [destruct (bool_decide (messageCode c = MC_LDATA_IND)); simpl;
       [destruct (_ldl w) as [l|] eqn:El|]|].
    + unfold dataInd. simpl.
      destruct (dataInd_body l c (upper w)) as [[[]|e] u']; simpl;
        eexists; (split; [reflexivity|]); unfold keeps_service; simpl; auto 10.
    + eexists. split; [reflexivity|]. unfold keeps_service. simpl.
      rewrite app_nil_r. auto 10.
    + eexists. split; [reflexivity|]. unfold keeps_service. simpl.
      destruct (_ldl w); simpl; rewrite app_nil_r; auto 10.
    + eexists. split; [reflexivity|]. unfold keeps_service. simpl.
      destruct (_ldl w); simpl; rewrite app_nil_r; auto 10.
  - eexists. split; [reflexivity|]. unfold keeps_service. simpl.
    rewrite app_nil_r. auto 10.
Qed.

Lemma deliveries_stable cs (w w' : world U) :
  _individualAddress w' = _individualAddress w → _ldl w' = _ldl w →
  deliveries cs w' = deliveries cs w.
Proof.
  intros Hia Hl. unfold deliveries, delivered. by rewrite Hia, Hl.
Qed.

(** A loop entered with [_running] cleared leaves at once. *)
Lemma run_loop_stopped (inq : list inbound) : ∀ w : world U,
  _running w = false →
  ∃ w', run_loop dataInd_body inq w = Ended w'
        ∧ keeps_service w w'
        ∧ indications w' = indications w ∧ upper w' = upper w.
Proof.
  induction inq as [|[c|e|] inq IH]; intros w Hr; cbn [run_loop]; rewrite ?Hr.
  - eexists. split; [reflexivity|]. unfold keeps_service. simpl. auto 10.
  - eexists. split; [reflexivity|]. unfold keeps_service. simpl. auto 10.
  - eexists. split; [reflexivity|]. unfold keeps_service. simpl. auto 10.
  - destruct (IH (snd (stop w))) as (w' & -> & (Hia & Hq & Hl & Hrn & Ht) & Hi & Hu);
      [reflexivity|].
    exists w'. split; [reflexivity|]. unfold keeps_service. simpl in *.
    rewrite Hrn, Hr. auto 10.
Qed.

(** A loop entered with [_running] set works through what comes before the
    first [stop()], and ends exactly if there is one. *)
Lemma run_loop_running (inq : list inbound) : ∀ w : world U,
  _running w = true →
  let calls := deliveries (frames (before_stop inq)) w in
  ∃ w', run_loop dataInd_body inq w
        = (if stops inq then Ended w' else Blocked w')
        ∧ _individualAddress w' = _individualAddress w
        ∧ _outQueue w' = _outQueue w
        ∧ _ldl w' = _ldl w
        ∧ transmissions w' = transmissions w
        ∧ indications w' = indications w ++ calls
        ∧ upper w' = after_indications dataInd_body calls (upper w).
Proof.
  induction inq as [|i inq IH]; intros w Hr; cbv zeta.
  - cbn [run_loop]. rewrite Hr. exists w.
    unfold deliveries. simpl. rewrite app_nil_r. auto 10.
  - destruct i as [c|e|].
    + cbn [run_loop]. rewrite Hr.
      destruct (run_once_effect (Ret c) w)
        as (w1 & -> & (Hia & Hq & Hl & Hrn & Ht) & Hi & Hu).
      destruct (IH w1) as (w' & -> & Hia' & Hq' & Hl' & Ht' & Hi' & Hu');
        [congruence|].
      exists w'. cbn [stops].
      split; [reflexivity|].
      rewrite (deliveries_stable _ w w1 Hia Hl) in Hi', Hu'.
      assert (Hd : deliveries (frames (before_stop (Removed c :: inq))) w
                   = delivered c w ++ deliveries (frames (before_stop inq)) w)
        by reflexivity.
      rewrite Hd. unfold after_indications in *.
      rewrite fold_left_app, app_assoc, <- Hi, <- Hu.
      repeat split; congruence.
    + cbn [run_loop]. rewrite Hr.
      destruct (run_once_effect (Exc e) w)
        as (w1 & -> & (Hia & Hq & Hl & Hrn & Ht) & Hi & Hu).
      destruct (IH w1) as (w' & -> & Hia' & Hq' & Hl' & Ht' & Hi' & Hu');
        [congruence|].
      exists w'. cbn [stops].
      split; [reflexivity|].
      rewrite (deliveries_stable _ w w1 Hia Hl) in Hi', Hu'.
      simpl in Hi, Hu. rewrite app_nil_r in Hi.
      assert (Hd : deliveries (frames (before_stop (RemoveRaises e :: inq))) w
                   = deliveries (frames (before_stop inq)) w)
        by reflexivity.
      rewrite Hd.
      repeat split; congruence.
    + cbn [run_loop].
      destruct (run_loop_stopped inq (snd (stop w)))
        as (w' & -> & (Hia & Hq & Hl & Hrn & Ht) & Hi & Hu); [reflexivity|].
      exists w'. cbn [stops].
      split; [reflexivity|]. unfold deliveries. simpl in *.
      rewrite app_nil_r. auto 10.
Qed.

Lemma run_effect (inq : list inbound) (w : world U) :
  let calls := deliveries (frames (before_stop inq)) w in
  ∃ w', run dataInd_body inq w
        = (if stops inq then Ended w' else Blocked w')
        ∧ _individualAddress w' = _individualAddress w
        ∧ _outQueue w' = _outQueue w
        ∧ _ldl w' = _ldl w
        ∧ transmissions w' = transmissions w
        ∧ indications w' = indications w ++ calls
        ∧ upper w' = after_indications dataInd_body calls (upper w).
Proof.
  cbv zeta. unfold run.
  match goal with
  | |- context [run_loop _ inq ?w0] =>
      destruct (run_loop_running inq w0 eq_refl)
        as (w' & -> & Hia & Hq & Hl & Ht & Hi & Hu);
      rewrite (deliveries_stable _ w w0 eq_refl eq_refl) in Hi, Hu
  end.
  exists w'. simpl in *. auto 10.
Qed.

End Run.

(** X9: a run of the worker hands the layers above exactly the frames owed
    to them among those it drains until it sees a [stop()] at a loop head,
    once each and in the order in which they were drained, and leaves the
    layers above in the state these calls produce; a listener or a queue
    that raises loses nothing of it. *)
Theorem run_delivers_in_drain_order
        {U : Type} (dataInd_body : nat -> CEMILData -> U -> res unit * U)
        (inq : list inbound) (w : world U) :
  let w' := final (run dataInd_body inq w) in
  let calls := deliveries (frames (before_stop inq)) w in
  indications w' = indications w ++ calls
  ∧ upper w' = after_indications dataInd_body calls (upper w).
Proof.
  cbv zeta.
  destruct (run_effect dataInd_body inq w) as (w' & -> & _ & _ & _ & _ & Hi & Hu).
  destruct (stops inq); simpl; auto.
Qed.

Section Requests.
Context {U : Type}.

Lemma dataReq_effect (c : CEMILData) (w : world U)
      (pre post : list env_step) (r : Result) :
  Forall (fun e => keeps_waiting e = true) pre →
  let ref := length (transmissions w) in
  let c' := set_sourceAddress (_individualAddress w) c in
  ∃ w', dataReq (pre ++ Some (false, r) :: post) c w = Some (Ret r, c', w')
        ∧ _outQueue w' = _outQueue w ++ [(ref, priority c)]
        ∧ transmissions w' !! ref
          = Some {| payload := c'; waitConfirm := false;
                    result := r; held := false |}
        ∧ (∀ i, i ≠ ref → transmissions w' !! i = transmissions w !! i)
        ∧ _individualAddress w' = _individualAddress w
        ∧ _ldl w' = _ldl w
        ∧ indications w' = indications w.
Proof.
  intros Hk. cbv zeta.
  destruct (L_DataServiceProofs.dataReq_send_spec c w)
    as (w1 & Es & Ht1 & Hq1 & Hia1 & Hl1 & Hr1 & Hi1 & Hu1).
  cbv zeta in Es.
  assert (Hlk : transmissions w1 !! length (transmissions w)
                = Some (set_held true (new_Transmission
                          (set_sourceAddress (_individualAddress w) c)))).
  { rewrite Ht1. apply list_lookup_middle. reflexivity. }
  destruct (L_DataServiceProofs.wait_confirm_returns
              (length (transmissions w)) r post pre w1 _ Hlk eq_refl Hk)
    as (w2 & Ew & (Hia & Hq & Hl & Hrn & Hlg & Hi & Hu) & Hr & Ho).
  unfold dataReq. rewrite Es, Ew.
  unfold dataReq_return, update_Transmission, get_Transmission, bind, modify, get.
  simpl. rewrite list_lookup_alter_eq, Hr. simpl.
  eexists. split; [reflexivity|]. simpl.
  rewrite list_lookup_alter_eq, Hr. simpl.
  repeat split; try congruence.
  intros i Hne. rewrite list_lookup_alter_ne by done. rewrite (Ho i Hne), Ht1.
  destruct (decide (i < length (transmissions w))%nat).
  - by rewrite lookup_app_l.
  - rewrite !lookup_ge_None_2; [done|lia|rewrite length_app; simpl; lia].
Qed.

Lemma lookup_length_S {A} (l : list A) n x :
  l !! n = Some x → l !! S n = None → length l = S n.
Proof.
  intros H1%lookup_lt_Some H2%lookup_ge_None. lia.
Qed.

End Requests.

(** X12: two requests made one after the other are wrapped in two distinct
    transmissions, queued in the order of the calls, each under its frame's
    priority; the second call leaves the transmission of the first, with its
    result, as it was, and both frames carry the service's address. *)
Theorem dataReq_twice_queues_in_call_order
        {U : Type} (c1 c2 : CEMILData) (w : world U)
        (pre1 post1 pre2 post2 : list env_step) (r1 r2 : Result) :
  Forall (fun e => keeps_waiting e = true) pre1 →
  Forall (fun e => keeps_waiting e = true) pre2 →
  let n := length (transmissions w) in
  let c1' := set_sourceAddress (_individualAddress w) c1 in
  let c2' := set_sourceAddress (_individualAddress w) c2 in
  ∃ w1 w2,
    dataReq (pre1 ++ Some (false, r1) :: post1) c1 w = Some (Ret r1, c1', w1)
    ∧ dataReq (pre2 ++ Some (false, r2) :: post2) c2 w1 = Some (Ret r2, c2', w2)
    ∧ _outQueue w2 = _outQueue w ++ [(n, priority c1); (S n, priority c2)]
    ∧ transmissions w2 !! n
      = Some {| payload := c1'; waitConfirm := false; result := r1; held := false |}
    ∧ transmissions w2 !! S n
      = Some {| payload := c2'; waitConfirm := false; result := r2; held := false |}
    ∧ ∀ i, (i < n)%nat → transmissions w2 !! i = transmissions w !! i.
Proof.
  intros Hk1 Hk2. cbv zeta.
  destruct (dataReq_effect c1 w pre1 post1 r1 Hk1)
    as (w1 & E1 & Hq1 & Ht1 & Ho1 & Hia1 & _).
  assert (Hlen : length (transmissions w1) = S (length (transmissions w))).
  { eapply lookup_length_S; [exact Ht1|].
    rewrite Ho1 by lia. apply lookup_ge_None. lia. }
  destruct (dataReq_effect c2 w1 pre2 post2 r2 Hk2)
    as (w2 & E2 & Hq2 & Ht2 & Ho2 & _).
  rewrite Hlen, Hia1 in *.
  exists w1, w2. split; [exact E1|]. split; [exact E2|].
  split; [by rewrite Hq2, Hq1, <- app_assoc|].
  split; [rewrite Ho2 by lia; exact Ht1|].
  split; [exact Ht2|].
  intros i Hi. rewrite Ho2 by lia. apply Ho1. lia.
Qed.

Lemma dataReq_twice_queues_in_call_order_witness :
  Forall (fun e => keeps_waiting e = true) [None]
  ∧ Forall (fun e => keeps_waiting e = true) ([] : list env_step)
  ∧ ∃ w1 w2,
      dataReq ([None] ++ [Some (false, TIMEOUT)]) request service
      = Some (Ret TIMEOUT, set_sourceAddress 0x1101 request, w1)
      ∧ dataReq ([] ++ [Some (false, OK)]) foreign_ind w1
        = Some (Ret OK, set_sourceAddress 0x1101 foreign_ind, w2)
      ∧ _outQueue w2 = [(0%nat, priority request); (1%nat, priority foreign_ind)].
Proof.
  assert (H1 : Forall (fun e => keeps_waiting e = true) [None])
    by (repeat constructor).
  assert (H2 : Forall (fun e => keeps_waiting e = true) ([] : list env_step))
    by constructor.
  split; [exact H1|]. split; [exact H2|].
  destruct (dataReq_twice_queues_in_call_order request foreign_ind service
              [None] [] [] [] TIMEOUT OK H1 H2) as (w1 & w2 & E1 & E2 & Hq & _).
  exists w1, w2. split; [exact E1|]. split; [exact E2|]. exact Hq.
Defined.

End L_DataServiceExtra.

(** ** The multicast sockets: construction *)

Module MulticastSocketExtra.
Import MulticastSocket MulticastSocketSpec MulticastSocketReceive.



(** X16: a receive socket is refused for an address whose first octet is
    outside 224..239: the constructor raises [McastSockValueError] before it
    sets an option, binds or joins anything. *)
Theorem receive_socket_rejects_non_multicast
        (os_supports : sockopt -> bool) (os_bind : string * Z -> bool)
        (inet_aton : string -> res octets)
        (os_set_if : octets -> bool) (os_join : octets * Z -> bool)
        (localAddr mcastAddr : string) (mcastPort timeout ttl loop : Z)
        (a : octets) (s : receive_socket) :
  inet_aton mcastAddr = Ret a →
  ¬ (224 <= byte2int a < 240) →
  MulticastSocketReceive__init__ os_supports os_bind inet_aton os_set_if os_join
    localAddr mcastAddr mcastPort timeout ttl loop s
  = (Exc (Exn "McastSockValueError"), s).
Proof.
  intros Ha Hout.
  unfold MulticastSocketReceive__init__, aton, bind. rewrite Ha. unfold ret.
  rewrite (bool_decide_eq_false_2 _ Hout). reflexivity.
Qed.

Lemma receive_socket_rejects_non_multicast_witness :
  aton_table "240.0.0.1" = Ret (240, 0, 0, 1)
  ∧ ¬ (224 <= byte2int (240, 0, 0, 1) < 240)
  ∧ MulticastSocketReceive__init__ os_any bind_ok aton_table
      (fun _ => true) (fun _ => true)
      "192.168.1.10" "240.0.0.1" 3671 default_timeout default_ttl default_loop
      fresh_receive
    = (Exc (Exn "McastSockValueError"), fresh_receive).
Proof.
  assert (H : ¬ (224 <= byte2int (240, 0, 0, 1) < 240)) by (unfold byte2int; simpl; lia).
  split; [reflexivity|]. split; [exact H|].
  exact (receive_socket_rejects_non_multicast os_any bind_ok aton_table
           (fun _ => true) (fun _ => true)
           "192.168.1.10" "240.0.0.1" 3671 default_timeout default_ttl default_loop
           (240, 0, 0, 1) fresh_receive eq_refl H).
Defined.

(** X17: a receive socket that was constructed is bound to the multicast
    port on every local address (the empty host, not [localAddr]), has asked
    to join the group of its multicast address, whose first octet is in
    224..239, on [INADDR_ANY] and to send through the interface of
    [localAddr], and has its timeout, which is not negative, set. *)
Theorem receive_socket_configured
        (os_supports : sockopt -> bool) (os_bind : string * Z -> bool)
        (inet_aton : string -> res octets)
        (os_set_if : octets -> bool) (os_join : octets * Z -> bool)
        (localAddr mcastAddr : string) (mcastPort timeout ttl loop : Z)
        (s : receive_socket) :
  MulticastSocketReceive__init__ os_supports os_bind inet_aton os_set_if os_join
    localAddr mcastAddr mcastPort timeout ttl loop fresh_receive = (Ret tt, s) →
  bound (base s) = Some ("", mcastPort)
  ∧ _localPort (base s) = mcastPort
  ∧ _localAddr (base s) = localAddr
  ∧ _mcastAddr (base s) = mcastAddr
  ∧ timeout_ s = Some timeout
  ∧ 0 <= timeout
  ∧ ∃ g l, inet_aton mcastAddr = Ret g ∧ 224 <= byte2int g < 240
           ∧ inet_aton localAddr = Ret l
           ∧ membership s = Some (g, INADDR_ANY)
           ∧ multicast_if s = Some l.
Proof.
  unfold MulticastSocketReceive__init__, aton, bind.
  destruct (inet_aton mcastAddr) as [g|e] eqn:Eg; [|discriminate].
  unfold ret at 1.
  destruct (decide (224 <= byte2int g < 240)) as [Hin|Hout];
    [rewrite (bool_decide_eq_true_2 _ Hin)
    |rewrite (bool_decide_eq_false_2 _ Hout); discriminate].
  unfold lift, MulticastSocketBase__init__, MulticastSocketReceive__bind, bind_,
    setsockopt, set_multicast_if, add_membership, settimeout,
    try_except, bind, modify, get, raise, ret, MulticastSocket.logger, fresh_receive, fresh.
  simpl.
  destruct (os_supports SO_REUSEADDR); simpl; [|discriminate].
  destruct (os_supports SO_REUSEPORT); simpl;
    (destruct (os_supports IP_MULTICAST_TTL); simpl; [|discriminate]);
    (destruct (os_supports IP_MULTICAST_LOOP); simpl; [|discriminate]);
    (destruct (os_bind ("", mcastPort)); simpl; [|discriminate]);
    (destruct (inet_aton localAddr) as [l|e] eqn:El; simpl; [|discriminate]);
    (destruct (os_set_if l); simpl; [|discriminate]);
    (destruct (os_join (g, INADDR_ANY)); simpl; [|discriminate]);
    (destruct (decide (timeout < 0)) as [Hneg|Hpos];
     [rewrite (bool_decide_eq_true_2 _ Hneg); discriminate
     |rewrite (bool_decide_eq_false_2 _ Hpos)]);
    intros [= <-]; simpl; repeat (split; [reflexivity|]);
    (split; [lia|]); exists g, l; auto.
Qed.

Lemma receive_socket_configured_witness :
  let r := MulticastSocketReceive__init__ os_any bind_ok aton_table
             (fun _ => true) (fun _ => true)
             "192.168.1.10" "224.0.23.12" 3671
             default_timeout default_ttl default_loop fresh_receive in
  r = (Ret tt, snd r)
  ∧ bound (base (snd r)) = Some ("", 3671)
  ∧ timeout_ (snd r) = Some 1.
Proof.
  cbv zeta.
  assert (E : MulticastSocketReceive__init__ os_any bind_ok aton_table
                (fun _ => true) (fun _ => true)
                "192.168.1.10" "224.0.23.12" 3671
                default_timeout default_ttl default_loop fresh_receive
              = (Ret tt, snd (MulticastSocketReceive__init__ os_any bind_ok aton_table
                                (fun _ => true) (fun _ => true)
                                "192.168.1.10" "224.0.23.12" 3671
                                default_timeout default_ttl default_loop
                                fresh_receive)))
    by (vm_compute; reflexivity).
  split; [exact E|].
  destruct (receive_socket_configured os_any bind_ok aton_table
              (fun _ => true) (fun _ => true)
              "192.168.1.10" "224.0.23.12" 3671
              default_timeout default_ttl default_loop _ E)
    as (H1 & _ & _ & _ & H7 & _).
  split; [exact H1|exact H7].
Defined.

(** X18: [transmit] returns normally, leaving the socket as it was, when the
    send reports every octet of the datagram (or more), and also when it
    reports no positive count; an empty datagram in particular never makes it
    raise [IOError]. *)
Theorem transmit_complete_send_returns
        (os_sendto : list Z -> string * Z -> res Z)
        (data : list Z) (l : Z) (s : socket_) :
  os_sendto data (_mcastAddr s, _mcastPort s) = Ret l →
  l <= 0 ∨ Z.of_nat (length data) <= l ∨ data = [] →
  transmit os_sendto data s = (Ret tt, s).
Proof.
  intros Hs Hl.
  unfold transmit, sendto, bind, get. rewrite Hs. unfold ret.
  destruct (decide (l > 0)) as [Hpos|Hnp].
  - rewrite (bool_decide_eq_true_2 _ Hpos).
    rewrite (bool_decide_eq_false_2 (l < Z.of_nat (length data))); [reflexivity|].
    destruct Hl as [?|[?| ->]]; simpl; lia.
  - rewrite (bool_decide_eq_false_2 _ Hnp). reflexivity.
Qed.

Lemma transmit_complete_send_returns_witness :
  sends 17 datagram (_mcastAddr (snd routing_socket), _mcastPort (snd routing_socket))
  = Ret 17
  ∧ (17 <= 0 ∨ Z.of_nat (length datagram) <= 17 ∨ datagram = [])
  ∧ transmit (sends 17) datagram (snd routing_socket) = (Ret tt, snd routing_socket).
Proof.
  assert (H : 17 <= 0 ∨ Z.of_nat (length datagram) <= 17 ∨ datagram = [])
    by (right; left; simpl; lia).
  split; [reflexivity|]. split; [exact H|].
  exact (transmit_complete_send_returns (sends 17) datagram 17
           (snd routing_socket) eq_refl H).
Defined.

End MulticastSocketExtra.
